(** * ghdump: the paginated, time-bounded traversal of issues and pull requests

    Shallow embedding of [iterateIssues] and [iteratePullRequests] of
    ghdump.go (and of their exported twins [IterateIssues] and
    [IteratePullRequests] of the earlier revision, whose bodies are the
    same line for line).

    The remote API is an external collaborator: it is a state of type
    [Remote] and an endpoint function that answers one request and leaves
    a new state.  The callback [fn] is observed through the log of the
    items it was invoked on, and every request through the log of the page
    numbers asked for. *)

From Stdlib Require Import ZArith List String Ascii DecimalString Bool Lia PeanoNat.
Import ListNotations.

Local Open Scope string_scope.
Local Open Scope list_scope.
Local Open Scope Z_scope.

(** ** Data of the program *)

(** [time.Time] as its instant, in nanoseconds from the epoch.
    [t.Before(u)] reports whether the instant [t] is before [u]. *)
Definition Time := Z.

Definition Before (t u : Time) : bool := t <? u.

(** Go's [error] values; [None] is the [nil] error. *)
Definition error := string.

Definition GitHubMaxItemsPerPage : Z := 100.

(** The global [CmdFlags]. *)
Record Flags := {
  Username : string;
  Password : string;
  NoLogin : bool;
  TabSeparated : bool;
  Organization : string;
  Repository : string;
  Since : string
}.

(** [github.ListOptions], and the fields that the two traversals set in
    [github.IssueListByRepoOptions] and [github.PullRequestListOptions]. *)
Record ListOptions := {
  Page : Z;
  PerPage : Z
}.

Record ListParams := {
  Direction : string;
  Sort : string;
  State : string;
  Paging : ListOptions
}.

(** [github.Response]: only [NextPage] is read; 0 means no next page. *)
Record Response := {
  NextPage : Z
}.

(** What the traversal reads of an item: [i.CreatedAt], a pointer in
    go-github, hence optional. *)
Class Dated (Item : Type) := CreatedAt : Item -> option Time.

Record Issue := {
  IssueNumber : Z;
  IssueTitle : string;
  IssueCreatedAt : option Time
}.

Record PullRequest := {
  PullNumber : Z;
  PullTitle : string;
  PullCreatedAt : option Time
}.

#[export] Instance Dated_Issue : Dated Issue := IssueCreatedAt.
#[export] Instance Dated_PullRequest : Dated PullRequest := PullCreatedAt.

(** One call of [client.Issues.ListByRepo] or [client.PullRequests.List]:
    owner, repository and options in; items, response and error out, and
    the remote side possibly changed. *)
Definition Fetched (Item : Type) : Type := (list Item * Response * option error)%type.

Definition Endpoint (Remote Item : Type) : Type :=
  Remote -> string -> string -> ListParams -> Fetched Item * Remote.

(** [github.Client], as far as the program uses it. *)
Record Client (Remote : Type) := {
  Issues_ListByRepo : Endpoint Remote Issue;
  PullRequests_List : Endpoint Remote PullRequest
}.

Arguments Issues_ListByRepo {Remote} _.
Arguments PullRequests_List {Remote} _.

(** How a run of a traversal ends: it returns an error value (possibly
    [nil]), or it dereferences a [nil] [CreatedAt] and panics. *)
Inductive Outcome : Type :=
| Returned (err : option error)
| Panicked.

(** What the [for ... range] loop over one page leaves to its caller. *)
Inductive Control : Type :=
| Fallthrough
| Return (o : Outcome).

(** ** The traversal *)

Section Traversal.

Context {Remote Item : Type} `{Dated Item}.

Variable CmdFlags : Flags.
Variable fetchPage : Endpoint Remote Item.
Variable since : Time.

(** The state of the outer [for] loop, with the two logs. *)
Record Loop := {
  remote : Remote;
  options : ListParams;
  calls : list Item;
  requests : list Z
}.

Inductive Step : Type :=
| Next (st : Loop)
| Halt (o : Outcome) (st : Loop).

(** [options := github.IssueListByRepoOptions{...}] with the page [c];
    [Page] is 0 before the first request. *)
Definition optionsAt (c : Z) : ListParams :=
  {| Direction := "desc";
     Sort := "created";
     State := "all";
     Paging := {| Page := c; PerPage := GitHubMaxItemsPerPage |} |}.

(** [options.Page = response.NextPage] *)
Definition setPage (o : ListParams) (c : Z) : ListParams :=
  {| Direction := Direction o;
     Sort := Sort o;
     State := State o;
     Paging := {| Page := c; PerPage := PerPage (Paging o) |} |}.

(** [i.CreatedAt.Before(since)], when [CreatedAt] is not [nil]. *)
Definition older (i : Item) : bool :=
  match CreatedAt i with
  | Some t => Before t since
  | None => false
  end.

(** [for _, i := range items { if i.CreatedAt.Before(since) { return nil }; fn(i) }]
    with [log] the invocations of [fn] so far. *)
Fixpoint rangeItems (items : list Item) (log : list Item) : Control * list Item :=
  match items with
  | [] => (Fallthrough, log)
  | i :: rest =>
      match CreatedAt i with
      | None => (Return Panicked, log)
      | Some t =>
          if Before t since then (Return (Returned None), log)
          else rangeItems rest (log ++ [i])
      end
  end.

(** One turn of the outer [for] loop. *)
Definition iteration (st : Loop) : Step :=
  let '(items, response, err, remote') :=
    fetchPage (remote st) (Organization CmdFlags) (Repository CmdFlags) (options st) in
  let asked := requests st ++ [Page (Paging (options st))] in
  match err with
  | Some e =>
      Halt (Returned (Some e))
        {| remote := remote'; options := options st; calls := calls st; requests := asked |}
  | None =>
      match rangeItems items (calls st) with
      | (Return o, log) =>
          Halt o {| remote := remote'; options := options st; calls := log; requests := asked |}
      | (Fallthrough, log) =>
          if NextPage response =? 0 then
            Halt (Returned None)
              {| remote := remote'; options := options st; calls := log; requests := asked |}
          else
            Next {| remote := remote';
                    options := setPage (options st) (NextPage response);
                    calls := log;
                    requests := asked |}
      end
  end.

(** The outer [for { ... }] has no bound of its own: [fuel] bounds the
    number of turns, and [None] is a run that needs more. *)
Fixpoint loop (fuel : nat) (st : Loop) : option (Outcome * Loop) :=
  match fuel with
  | O => None
  | S fuel' =>
      match iteration st with
      | Next st' => loop fuel' st'
      | Halt o st' => Some (o, st')
      end
  end.

Definition start (r : Remote) : Loop :=
  {| remote := r; options := optionsAt 0; calls := []; requests := [] |}.

(** The body shared by [iterateIssues] and [iteratePullRequests]. *)
Definition iterateItems (fuel : nat) (r : Remote) : option (Outcome * Loop) :=
  loop fuel (start r).

(** The loop state after [k] complete turns, if the loop gets that far. *)
Fixpoint advance (k : nat) (st : Loop) : option Loop :=
  match k with
  | O => Some st
  | S k' =>
      match iteration st with
      | Next st' => advance k' st'
      | Halt _ _ => None
      end
  end.

(** *** Page sequences *)

(** From the state [r] and the page number [c] the remote serves the
    pages [pages], one per request and without error, and reports no
    next page exactly with the last of them. *)
Inductive serves : Remote -> Z -> list (list Item) -> Prop :=
| serves_last r c items response r' :
    fetchPage r (Organization CmdFlags) (Repository CmdFlags) (optionsAt c)
      = (items, response, None, r') ->
    NextPage response = 0 ->
    serves r c [items]
| serves_more r c items response r' pages :
    fetchPage r (Organization CmdFlags) (Repository CmdFlags) (optionsAt c)
      = (items, response, None, r') ->
    NextPage response <> 0 ->
    serves r' (NextPage response) pages ->
    serves r c (items :: pages).

(** The chain of next-page numbers from [(r, c)] ends within [n]
    requests: with an error, with no next page, or with a page on which
    the [range] loop returns. *)
Inductive chain : Remote -> Z -> nat -> Prop :=
| chain_error r c items response e r' :
    fetchPage r (Organization CmdFlags) (Repository CmdFlags) (optionsAt c)
      = (items, response, Some e, r') ->
    chain r c 1
| chain_none r c items response r' :
    fetchPage r (Organization CmdFlags) (Repository CmdFlags) (optionsAt c)
      = (items, response, None, r') ->
    NextPage response = 0 ->
    chain r c 1
| chain_cutoff r c items response r' o :
    fetchPage r (Organization CmdFlags) (Repository CmdFlags) (optionsAt c)
      = (items, response, None, r') ->
    fst (rangeItems items []) = Return o ->
    chain r c 1
| chain_next r c items response r' n :
    fetchPage r (Organization CmdFlags) (Repository CmdFlags) (optionsAt c)
      = (items, response, None, r') ->
    NextPage response <> 0 ->
    chain r' (NextPage response) n ->
    chain r c (S n).

(** Creation dates present and strictly descending along the list. *)
Fixpoint descending (items : list Item) : bool :=
  match items with
  | [] => true
  | i :: rest =>
      match CreatedAt i with
      | None => false
      | Some t =>
          match rest with
          | [] => true
          | j :: _ =>
              match CreatedAt j with
              | Some u => Before u t
              | None => false
              end
          end && descending rest
      end
  end.

(** The item has a creation date, and it is not before the cutoff. *)
Definition fresh (i : Item) : bool :=
  match CreatedAt i with
  | Some t => negb (Before t since)
  | None => false
  end.

(** No item before the cutoff, and none without a date, was handed to [fn]. *)
Definition fresh_log (st : Loop) : Prop :=
  Forall (fun i => fresh i = true) (calls st).

(** What a traversal does on a page sequence, read off the pages alone:
    outcome, items handed to [fn], number of pages asked for. *)
Fixpoint walk (pages : list (list Item)) : Outcome * list Item * nat :=
  match pages with
  | [] => (Returned None, [], O)
  | items :: more =>
      match rangeItems items [] with
      | (Return o, log) => (o, log, 1%nat)
      | (Fallthrough, log) =>
          match more with
          | [] => (Returned None, log, 1%nat)
          | _ :: _ =>
              let '(o, log', n) := walk more in
              (o, log ++ log', S n)
          end
      end
  end.

End Traversal.

Arguments Loop : clear implicits.
Arguments Step : clear implicits.

(** ** The two traversals of the program *)

Definition iterateIssues {Remote : Type} (CmdFlags : Flags) (client : Client Remote)
    (since : Time) (fuel : nat) (r : Remote) : option (Outcome * Loop Remote Issue) :=
  iterateItems CmdFlags (Issues_ListByRepo client) since fuel r.

Definition iteratePullRequests {Remote : Type} (CmdFlags : Flags) (client : Client Remote)
    (since : Time) (fuel : nat) (r : Remote) : option (Outcome * Loop Remote PullRequest) :=
  iterateItems CmdFlags (PullRequests_List client) since fuel r.

(** [IterateIssues] and [IteratePullRequests] of the earlier revision: the
    same two loops under exported names. *)
Definition IterateIssues {Remote : Type} (CmdFlags : Flags) (client : Client Remote)
    (since : Time) (fuel : nat) (r : Remote) : option (Outcome * Loop Remote Issue) :=
  iterateItems CmdFlags (Issues_ListByRepo client) since fuel r.

Definition IteratePullRequests {Remote : Type} (CmdFlags : Flags) (client : Client Remote)
    (since : Time) (fuel : nat) (r : Remote) : option (Outcome * Loop Remote PullRequest) :=
  iterateItems CmdFlags (PullRequests_List client) since fuel r.

(** ** Stand-ins for the remote side *)

(** A remote that keeps a fixed list of pages and answers by page number,
    as the API does: page 0 (the option left out) and page 1 are the
    first page, a next page is reported when there is one, and a page
    beyond the last is empty. *)
Definition servePages {Item : Type} (pages : list (list Item)) : Endpoint unit Item :=
  fun r _ _ o =>
    let k := Z.max 1 (Page (Paging o)) in
    let items := nth (Z.to_nat (k - 1)) pages [] in
    let next := if k <? Z.of_nat (List.length pages) then k + 1 else 0 in
    ((items, {| NextPage := next |}, None), r).

(** A remote that plays back a script, one answer per request whatever
    the request asks for, and fails once the script is over. *)
Definition replay {Item : Type} : Endpoint (list (Fetched Item)) Item :=
  fun script _ _ _ =>
    match script with
    | [] => (([], {| NextPage := 0 |}, Some "EOF"), [])
    | answer :: script' => (answer, script')
    end.

Definition stubClient (issues : list (list Issue)) (pulls : list (list PullRequest))
    : Client unit :=
  {| Issues_ListByRepo := servePages issues;
     PullRequests_List := servePages pulls |}.

(** Both endpoints played back from one remote state, a script each. *)
Definition replayClient : Client (list (Fetched Issue) * list (Fetched PullRequest)) :=
  {| Issues_ListByRepo := fun r owner repo o =>
       let '(answer, script) := replay (fst r) owner repo o in
       (answer, (script, snd r));
     PullRequests_List := fun r owner repo o =>
       let '(answer, script) := replay (snd r) owner repo o in
       (answer, (fst r, script)) |}.

(** *** Sample data *)

Definition day (n : Z) : Time := n * 86400 * 1000000000.

Definition acmeWidgets : Flags :=
  {| Username := ""; Password := ""; NoLogin := true; TabSeparated := false;
     Organization := "acme"; Repository := "widgets"; Since := "2024-01-01" |}.

(** 2024-01-01, midnight *)
Definition newYear : Time := day 19723.

(** Issues created on 2024-02-01, 2024-01-15, 2024-01-01 at midnight,
    2023-12-20, 2023-11-05 and 2023-10-01. *)
Definition issue6 : Issue :=
  {| IssueNumber := 6; IssueTitle := "sixth"; IssueCreatedAt := Some (day 19754) |}.
Definition issue5 : Issue :=
  {| IssueNumber := 5; IssueTitle := "fifth"; IssueCreatedAt := Some (day 19737) |}.
Definition issue4 : Issue :=
  {| IssueNumber := 4; IssueTitle := "fourth"; IssueCreatedAt := Some newYear |}.
Definition issue3 : Issue :=
  {| IssueNumber := 3; IssueTitle := "third"; IssueCreatedAt := Some (day 19711) |}.
Definition issue2 : Issue :=
  {| IssueNumber := 2; IssueTitle := "second"; IssueCreatedAt := Some (day 19666) |}.
Definition issue1 : Issue :=
  {| IssueNumber := 1; IssueTitle := "first"; IssueCreatedAt := Some (day 19631) |}.

(** Pull requests created on 2024-02-01, 2024-01-15, 2023-12-20,
    2023-11-05 and 2023-10-01. *)
Definition pull4 : PullRequest :=
  {| PullNumber := 14; PullTitle := "new patch"; PullCreatedAt := Some (day 19754) |}.
Definition pull3 : PullRequest :=
  {| PullNumber := 13; PullTitle := "patch"; PullCreatedAt := Some (day 19737) |}.
Definition pull2 : PullRequest :=
  {| PullNumber := 12; PullTitle := "old patch"; PullCreatedAt := Some (day 19711) |}.
Definition pull1 : PullRequest :=
  {| PullNumber := 11; PullTitle := "older patch"; PullCreatedAt := Some (day 19666) |}.
Definition pull0 : PullRequest :=
  {| PullNumber := 10; PullTitle := "oldest patch"; PullCreatedAt := Some (day 19631) |}.

(** The whole history of issues in pages of two, newest first. *)
Definition issueHistory : list (list Issue) :=
  [[issue6; issue5]; [issue4; issue3]; [issue2; issue1]].

(** The issues of 2024 only, in pages of two. *)
Definition issuesOf2024 : list (list Issue) :=
  [[issue6; issue5]; [issue4]].

(** The issues of 2023 only. *)
Definition issuesOf2023 : list (list Issue) :=
  [[issue3; issue2]; [issue1]].

(** An empty first page that still reports a next page. *)
Definition emptyThenMore : list (list Issue) :=
  [[]; [issue6]].

Definition pullHistory : list (list PullRequest) :=
  [[pull4]; [pull3; pull2; pull1]; [pull0]].

(** Pages that are not in descending order. *)
Definition shuffled : list (list Issue) :=
  [[issue5; issue6]; [issue4; issue2; issue6]].

(** A first page of issues, then a failure of the transport. *)
Definition pageThenFailure : list (Fetched Issue) :=
  [([issue6; issue5], {| NextPage := 2 |}, None);
   ([], {| NextPage := 0 |}, Some "connection reset")].

(** ** The rest of the program *)

Definition GitHubTokenEnvVarName : string := "GITHUBTOKEN".
Definition GitHubPasswordEnvVarName : string := "GITHUBPASSWORD".

Definition GoogleSheetDateFormat : string := "01/02/2006 15:04:07".
Definition CmdFlagsSinceFormat : string := "2006-01-02".

Definition TypePullRequest : string := "Pull Request".
Definition TypeIssue : string := "Issue".

(** *** [googleSheetHyperlink] *)

(** The [interface{}] values that [main] passes: a login ([string]) or a
    number ([int]). *)
Inductive Value : Type :=
| VString (s : string)
| VInt (n : Z).

(** The verb [%v]: a string as it is, an integer in decimal. *)
Definition formatValue (v : Value) : string :=
  match v with
  | VString s => s
  | VInt n => NilZero.string_of_int (Z.to_int n)
  end.

(** The double quote, character 34. *)
Definition quote : ascii := "034"%char.

(** [fmt.Sprintf] with the format [=HYPERLINK(Q%sQ, Q%vQ)], where [Q]
    stands for the double quote, applied to [link] and [value]. *)
Definition googleSheetHyperlink (value : Value) (link : string) : string :=
  "=HYPERLINK(" ++ String quote (link ++ String quote (", " ++
    String quote (formatValue value ++ String quote ")"))).

(** No double quote in the string. *)
Fixpoint quoteFree (s : string) : bool :=
  match s with
  | EmptyString => true
  | String c s' => negb (Ascii.eqb c quote) && quoteFree s'
  end.

(** *** [gitHubHTTPClient] *)

(** The environment of the process; [os.Getenv] gives the empty string
    for a variable that is not set. *)
Definition Env := list (string * string).

Fixpoint Getenv (env : Env) (key : string) : string :=
  match env with
  | [] => ""
  | (k, v) :: env' => if String.eqb k key then v else Getenv env' key
  end.

(** The two clients that the program builds: over a static OAuth2 token,
    or over [github.BasicAuthTransport]. *)
Inductive HTTPClient : Type :=
| OAuth2Client (AccessToken : string)
| BasicAuthClient (username password : string).

(** [len(s) > 0] *)
Definition nonEmpty (s : string) : bool := (0 <? String.length s)%nat.

(** [gitHubHTTPClient] of ghdump.go; [None] is the [nil] client. *)
Definition gitHubHTTPClient (env : Env) (CmdFlags : Flags) : option HTTPClient :=
  let token := Getenv env GitHubTokenEnvVarName in
  if nonEmpty token then Some (OAuth2Client token)
  else if nonEmpty (Username CmdFlags) && nonEmpty (Password CmdFlags) then
    Some (BasicAuthClient (Username CmdFlags) (Password CmdFlags))
  else None.

(** [GitHubHTTPClient] of the earlier revision: the token or nothing. *)
Definition GitHubHTTPClient (env : Env) : option HTTPClient :=
  let token := Getenv env GitHubTokenEnvVarName in
  if (String.length token =? 0)%nat then None
  else Some (OAuth2Client token).

(** *** The traversal with the effect of its callback *)

(** What a call [fn(i)] does to the state [Sink] that the closure [fn]
    writes to: it returns, or it panics. *)
Inductive Called (Sink : Type) : Type :=
| Done (s : Sink)
| Panics (s : Sink).

Arguments Done {Sink} s.
Arguments Panics {Sink} s.

Definition sinkOf {Sink : Type} (c : Called Sink) : Sink :=
  match c with
  | Done s => s
  | Panics s => s
  end.

Section Callback.

Context {Remote Item Sink : Type} `{Dated Item}.

Variable CmdFlags : Flags.
Variable fetchPage : Endpoint Remote Item.
Variable since : Time.
Variable fn : Item -> Sink -> Called Sink.

(** The calls [fn(i)] for the items of [items], one after the other, up
    to the first that panics. *)
Fixpoint feed (items : list Item) (s : Sink) : Called Sink :=
  match items with
  | [] => Done s
  | i :: rest =>
      match fn i s with
      | Done s' => feed rest s'
      | Panics s' => Panics s'
      end
  end.

(** The [range] loop as in [rangeItems], with the call [fn(i)] made. *)
Fixpoint rangeWith (items : list Item) (log : list Item) (s : Sink)
    : Control * list Item * Sink :=
  match items with
  | [] => (Fallthrough, log, s)
  | i :: rest =>
      match CreatedAt i with
      | None => (Return Panicked, log, s)
      | Some t =>
          if Before t since then (Return (Returned None), log, s)
          else
            match fn i s with
            | Done s' => rangeWith rest (log ++ [i]) s'
            | Panics s' => (Return Panicked, log ++ [i], s')
            end
      end
  end.

Inductive StepWith : Type :=
| NextWith (st : Loop Remote Item) (s : Sink)
| HaltWith (o : Outcome) (st : Loop Remote Item) (s : Sink).

(** One turn of the outer [for] loop, as in [iteration]. *)
Definition iterationWith (st : Loop Remote Item) (s : Sink) : StepWith :=
  let '(items, response, err, remote') :=
    fetchPage (remote st) (Organization CmdFlags) (Repository CmdFlags) (options st) in
  let asked := requests st ++ [Page (Paging (options st))] in
  match err with
  | Some e =>
      HaltWith (Returned (Some e))
        {| remote := remote'; options := options st; calls := calls st; requests := asked |}
        s
  | None =>
      match rangeWith items (calls st) s with
      | (Return o, log, s') =>
          HaltWith o
            {| remote := remote'; options := options st; calls := log; requests := asked |}
            s'
      | (Fallthrough, log, s') =>
          if NextPage response =? 0 then
            HaltWith (Returned None)
              {| remote := remote'; options := options st; calls := log; requests := asked |}
              s'
          else
            NextWith {| remote := remote';
                        options := setPage (options st) (NextPage response);
                        calls := log;
                        requests := asked |}
                     s'
      end
  end.

Fixpoint loopWith (fuel : nat) (st : Loop Remote Item) (s : Sink)
    : option (Outcome * Loop Remote Item * Sink) :=
  match fuel with
  | O => None
  | S fuel' =>
      match iterationWith st s with
      | NextWith st' s' => loopWith fuel' st' s'
      | HaltWith o st' s' => Some (o, st', s')
      end
  end.

(** [iterateIssues(client, since, fn)] and [iteratePullRequests(client,
    since, fn)] with the closure [fn] acting on [s]. *)
Definition iterateWith (fuel : nat) (r : Remote) (s : Sink)
    : option (Outcome * Loop Remote Item * Sink) :=
  loopWith fuel (start r) s.

End Callback.

(** *** [main] *)

(** The records of go-github with the fields that the closures of [main]
    read, every one of them through a pointer.  (The traversals above are
    stated over any item type with a creation date.) *)
Module github.

Record User := {
  User_Login : option string;
  User_HTMLURL : option string
}.

Record Issue := {
  Issue_User : option User;
  Issue_Number : option Z;
  Issue_HTMLURL : option string;
  Issue_Title : option string;
  Issue_CreatedAt : option Time
}.

Record PullRequest := {
  PullRequest_User : option User;
  PullRequest_Number : option Z;
  PullRequest_HTMLURL : option string;
  PullRequest_Title : option string;
  PullRequest_CreatedAt : option Time
}.

Record Client (Remote : Type) := {
  Issues_ListByRepo : Endpoint Remote Issue;
  PullRequests_List : Endpoint Remote PullRequest
}.

Arguments Issues_ListByRepo {Remote} _.
Arguments PullRequests_List {Remote} _.

End github.

#[export] Instance Dated_github_Issue : Dated github.Issue := github.Issue_CreatedAt.
#[export] Instance Dated_github_PullRequest : Dated github.PullRequest :=
  github.PullRequest_CreatedAt.

(** [csv.Writer], by the records handed to [Write]; they reach the
    standard output for certain only with [Flush]. *)
Record Writer := {
  Comma : ascii;
  handed : list (list string)
}.

(** [csv.NewWriter(os.Stdout)] *)
Definition NewWriter : Writer := {| Comma := ","%char; handed := [] |}.

(** [w.Write(record)]; the program does not look at the error. *)
Definition Write (w : Writer) (record : list string) : Writer :=
  {| Comma := Comma w; handed := handed w ++ [record] |}.

(** How the process ends: [main] returns, [log.Fatal] prints its
    argument and exits, or a panic goes unrecovered. *)
Inductive Exit : Type :=
| Returns
| Fatal (message : string)
| Crashes.

(** A run of [main]: how it ended, the writer if one was made, whether
    the deferred [w.Flush()] ran, the remote side as it was left, and the
    pages asked of either endpoint. *)
Record Process (Remote : Type) := {
  exit : Exit;
  writer : option Writer;
  flushed : bool;
  world : Remote;
  issuePages : list Z;
  pullPages : list Z
}.

Arguments exit {Remote} _.
Arguments writer {Remote} _.
Arguments flushed {Remote} _.
Arguments world {Remote} _.
Arguments issuePages {Remote} _.
Arguments pullPages {Remote} _.

Definition noAuthentication : string :=
  "No authentication could trigger API rate limiting: use authentication or use the flag -n to force.".

(** [CmdFlags.Password = os.Getenv(GitHubPasswordEnvVarName)] *)
Definition setPassword (f : Flags) (p : string) : Flags :=
  {| Username := Username f; Password := p; NoLogin := NoLogin f;
     TabSeparated := TabSeparated f; Organization := Organization f;
     Repository := Repository f; Since := Since f |}.

Section Main.

Context {Remote : Type}.

(** Of the libraries: [github.NewClient], [time.Parse] with its result
    and error, and [Time.Format]. *)
Variable NewClient : option HTTPClient -> github.Client Remote.
Variable Parse : string -> string -> Time * option error.
Variable Format : Time -> string -> string.

(** The record that the closure for issues builds; [None] when one of the
    pointers it dereferences is [nil]. *)
Definition issueRecord (i : github.Issue) : option (list string) :=
  match github.Issue_User i with
  | None => None
  | Some u =>
      match github.User_Login u, github.User_HTMLURL u, github.Issue_Number i,
            github.Issue_HTMLURL i, github.Issue_Title i, github.Issue_CreatedAt i with
      | Some login, Some profile, Some number, Some url, Some title, Some created =>
          Some [googleSheetHyperlink (VString login) profile;
                TypeIssue;
                googleSheetHyperlink (VInt number) url;
                title;
                Format created GoogleSheetDateFormat]
      | _, _, _, _, _, _ => None
      end
  end.

Definition pullRequestRecord (p : github.PullRequest) : option (list string) :=
  match github.PullRequest_User p with
  | None => None
  | Some u =>
      match github.User_Login u, github.User_HTMLURL u, github.PullRequest_Number p,
            github.PullRequest_HTMLURL p, github.PullRequest_Title p,
            github.PullRequest_CreatedAt p with
      | Some login, Some profile, Some number, Some url, Some title, Some created =>
          Some [googleSheetHyperlink (VString login) profile;
                TypePullRequest;
                googleSheetHyperlink (VInt number) url;
                title;
                Format created GoogleSheetDateFormat]
      | _, _, _, _, _, _ => None
      end
  end.

(** [func(i *github.Issue) { w.Write([]string{...}) }] *)
Definition writeIssue (i : github.Issue) (w : Writer) : Called Writer :=
  match issueRecord i with
  | Some record => Done (Write w record)
  | None => Panics w
  end.

(** [func(p *github.PullRequest) { w.Write([]string{...}) }] *)
Definition writePullRequest (p : github.PullRequest) (w : Writer) : Called Writer :=
  match pullRequestRecord p with
  | Some record => Done (Write w record)
  | None => Panics w
  end.

(** [main] of ghdump.go, on the flags as [flag.Parse] left them.
    [log.Fatal] exits without running the deferred [w.Flush()]; a panic
    runs it on its way out. *)
Definition main (env : Env) (parsed : Flags) (fuel : nat) (r : Remote)
    : option (Process Remote) :=
  let CmdFlags := setPassword parsed (Getenv env GitHubPasswordEnvVarName) in
  let httpClient := gitHubHTTPClient env CmdFlags in
  if match httpClient with None => true | Some _ => false end
     && Bool.eqb (NoLogin CmdFlags) false
  then
    Some {| exit := Fatal noAuthentication; writer := None; flushed := false;
            world := r; issuePages := []; pullPages := [] |}
  else
    let ghClient := NewClient httpClient in
    let w := NewWriter in
    let w := if TabSeparated CmdFlags
             then {| Comma := "009"%char; handed := handed w |} else w in
    let '(sinceDateTime, err) := Parse CmdFlagsSinceFormat (Since CmdFlags) in
    match err with
    | Some e =>
        Some {| exit := Fatal e; writer := Some w; flushed := false;
                world := r; issuePages := []; pullPages := [] |}
    | None =>
        match iterateWith CmdFlags (github.Issues_ListByRepo ghClient) sinceDateTime
                writeIssue fuel r w with
        | None => None
        | Some (Panicked, st, w1) =>
            Some {| exit := Crashes; writer := Some w1; flushed := true;
                    world := remote st; issuePages := requests st; pullPages := [] |}
        | Some (Returned (Some e), st, w1) =>
            Some {| exit := Fatal e; writer := Some w1; flushed := false;
                    world := remote st; issuePages := requests st; pullPages := [] |}
        | Some (Returned None, st, w1) =>
            match iterateWith CmdFlags (github.PullRequests_List ghClient) sinceDateTime
                    writePullRequest fuel (remote st) w1 with
            | None => None
            | Some (Panicked, st', w2) =>
                Some {| exit := Crashes; writer := Some w2; flushed := true;
                        world := remote st'; issuePages := requests st;
                        pullPages := requests st' |}
            | Some (Returned (Some e), st', w2) =>
                Some {| exit := Fatal e; writer := Some w2; flushed := false;
                        world := remote st'; issuePages := requests st;
                        pullPages := requests st' |}
            | Some (Returned None, st', w2) =>
                Some {| exit := Returns; writer := Some w2; flushed := true;
                        world := remote st'; issuePages := requests st;
                        pullPages := requests st' |}
            end
        end
    end.

End Main.

(** The records of the items that have one, in the order of the items. *)
Definition recordsOf {A : Type} (record : A -> option (list string)) (items : list A)
    : list (list string) :=
  flat_map (fun i => match record i with Some r => [r] | None => [] end) items.

(** *** Sample data for [main] *)

Definition octocat : github.User :=
  {| github.User_Login := Some "octocat";
     github.User_HTMLURL := Some "https://github.com/octocat" |}.

(** An issue of [octocat] with every field set. *)
Definition issueOf (number : Z) (title : string) (created : Time) : github.Issue :=
  {| github.Issue_User := Some octocat;
     github.Issue_Number := Some number;
     github.Issue_HTMLURL := Some "https://github.com/acme/widgets/issues";
     github.Issue_Title := Some title;
     github.Issue_CreatedAt := Some created |}.

Definition pullOf (number : Z) (title : string) (created : Time) : github.PullRequest :=
  {| github.PullRequest_User := Some octocat;
     github.PullRequest_Number := Some number;
     github.PullRequest_HTMLURL := Some "https://github.com/acme/widgets/pull";
     github.PullRequest_Title := Some title;
     github.PullRequest_CreatedAt := Some created |}.

(** Issues of 2024-02-01, 2024-01-15 and 2023-12-20, and one of
    2024-01-20 without a title. *)
Definition bug6 : github.Issue := issueOf 6 "crash on start" (day 19754).
Definition bug5 : github.Issue := issueOf 5 "typo" (day 19737).
Definition bug3 : github.Issue := issueOf 3 "old bug" (day 19711).
Definition untitled : github.Issue :=
  {| github.Issue_User := Some octocat;
     github.Issue_Number := Some 7;
     github.Issue_HTMLURL := Some "https://github.com/acme/widgets/issues";
     github.Issue_Title := None;
     github.Issue_CreatedAt := Some (day 19742) |}.

(** Pull requests of 2024-02-01 and 2023-12-20. *)
Definition fix4 : github.PullRequest := pullOf 14 "fix crash" (day 19754).
Definition fix2 : github.PullRequest := pullOf 12 "old fix" (day 19711).

(** A client over pages that are kept, whatever the credentials. *)
Definition pagesClient (issues : list (list github.Issue))
    (pulls : list (list github.PullRequest)) : option HTTPClient -> github.Client unit :=
  fun _ =>
    {| github.Issues_ListByRepo := servePages issues;
       github.PullRequests_List := servePages pulls |}.

(** A client that plays back a script for either endpoint. *)
Definition scriptClient
    : option HTTPClient ->
      github.Client (list (Fetched github.Issue) * list (Fetched github.PullRequest)) :=
  fun _ =>
    {| github.Issues_ListByRepo := fun r owner repo o =>
         let '(answer, script) := replay (fst r) owner repo o in
         (answer, (script, snd r));
       github.PullRequests_List := fun r owner repo o =>
         let '(answer, script) := replay (snd r) owner repo o in
         (answer, (fst r, script)) |}.

(** A [time.Parse] that knows one date, and a [Format] that prints the
    number of the day. *)
Definition parseNewYear (layout value : string) : Time * option error :=
  if String.eqb value "2024-01-01" then (newYear, None)
  else (0, Some "cannot parse the date").

Definition formatDay (t : Time) (layout : string) : string :=
  NilZero.string_of_int (Z.to_int (t / 86400000000000)).

Definition tokenEnv : Env := [("GITHUBTOKEN", "s3cr3t")].

Definition passwordEnv : Env := [("GITHUBPASSWORD", "hunter2")].

(** The flags without [-n]. *)
Definition acmeStrict : Flags :=
  {| Username := ""; Password := ""; NoLogin := false; TabSeparated := true;
     Organization := "acme"; Repository := "widgets"; Since := "2024-01-01" |}.


(** The flags of a user who gave a name, with the password as [main]
    takes it from the environment. *)
Definition acmeOctocat : Flags :=
  {| Username := "octocat"; Password := "hunter2"; NoLogin := false;
     TabSeparated := false; Organization := "acme"; Repository := "widgets";
     Since := "2024-01-01" |}.

(** A page of issues, then a failure of the transport; and the issues in
    one page, then a failure on the pull requests. *)
Definition issuesFail : list (Fetched github.Issue) * list (Fetched github.PullRequest) :=
  ([([bug6], {| NextPage := 2 |}, None);
    ([], {| NextPage := 0 |}, Some "connection reset")],
   []).

Definition pullsFail : list (Fetched github.Issue) * list (Fetched github.PullRequest) :=
  ([([bug6; bug3], {| NextPage := 0 |}, None)],
   [([fix4], {| NextPage := 2 |}, None);
    ([], {| NextPage := 0 |}, Some "connection reset")]).

(** ** Properties of the [range] loop over one page *)

Section RangeFacts.

Context {Item : Type} `{Dated Item}.
Variable since : Time.

Lemma rangeItems_log (items log : list Item) :
  rangeItems since items log
  = (fst (rangeItems since items []), log ++ snd (rangeItems since items [])).
Proof.
  revert log. induction items as [|i rest IH]; intros log; simpl.
  - now rewrite app_nil_r.
  - destruct (CreatedAt i) as [t|]; simpl; [|now rewrite app_nil_r].
    destruct (Before t since); simpl; [now rewrite app_nil_r|].
    rewrite (IH (log ++ [i])), (IH [i]). simpl. now rewrite <- app_assoc.
Qed.

Lemma older_not_fresh (i : Item) : older since i = true -> fresh since i = false.
Proof.
  unfold fresh, older. destruct (CreatedAt i); [|discriminate].
  now intros ->.
Qed.

Lemma rangeItems_fresh (items log : list Item) :
  Forall (fun i => fresh since i = true) items ->
  rangeItems since items log = (Fallthrough, log ++ items).
Proof.
  intros Hall. revert log.
  induction Hall as [|i rest Hi _ IH]; intros log; simpl.
  - now rewrite app_nil_r.
  - unfold fresh in Hi. destruct (CreatedAt i) as [t|]; [|discriminate].
    destruct (Before t since); [discriminate|].
    rewrite IH, <- app_assoc. reflexivity.
Qed.

Lemma rangeItems_older (a b log : list Item) (x : Item) :
  Forall (fun i => fresh since i = true) a ->
  older since x = true ->
  rangeItems since (a ++ x :: b) log = (Return (Returned None), log ++ a).
Proof.
  intros Hall Hx. revert log.
  induction Hall as [|i rest Hi _ IH]; intros log; simpl.
  - unfold older in Hx. destruct (CreatedAt x) as [t|]; [|discriminate].
    rewrite Hx. now rewrite app_nil_r.
  - unfold fresh in Hi. destruct (CreatedAt i) as [t|]; [|discriminate].
    destruct (Before t since); [discriminate|].
    rewrite IH, <- app_assoc. reflexivity.
Qed.

Lemma rangeItems_keeps_fresh (items log : list Item) :
  Forall (fun i => fresh since i = true) log ->
  Forall (fun i => fresh since i = true) (snd (rangeItems since items log)).
Proof.
  revert log. induction items as [|i rest IH]; intros log Hlog; simpl; [assumption|].
  destruct (CreatedAt i) as [t|] eqn:Hc; [|assumption].
  destruct (Before t since) eqn:Hb; [assumption|].
  apply IH. apply Forall_app. split; [assumption|].
  constructor; [|constructor]. unfold fresh. now rewrite Hc, Hb.
Qed.

(** In a descending list every item is dated, and everything behind an
    item older than the cutoff is older too. *)
Lemma descending_tail (i : Item) (rest : list Item) :
  descending (i :: rest) = true -> descending rest = true.
Proof.
  simpl. destruct (CreatedAt i); [|discriminate].
  intros Hd. apply andb_true_iff in Hd. tauto.
Qed.

Lemma descending_app_r (a b : list Item) :
  descending (a ++ b) = true -> descending b = true.
Proof.
  induction a as [|i a IH]; simpl app; [tauto|].
  intros Hd. apply IH. exact (descending_tail _ _ Hd).
Qed.

Lemma descending_dated (items : list Item) :
  descending items = true ->
  Forall (fun i => exists t, CreatedAt i = Some t) items.
Proof.
  induction items as [|i rest IH]; intros Hd; constructor.
  - simpl in Hd. destruct (CreatedAt i) as [t|]; [now exists t|discriminate].
  - apply IH. exact (descending_tail _ _ Hd).
Qed.

Lemma descending_older (x : Item) (rest : list Item) :
  descending (x :: rest) = true ->
  older since x = true ->
  Forall (fun i => older since i = true) (x :: rest).
Proof.
  revert x. induction rest as [|j rest IH]; intros x Hd Hx.
  - constructor; [assumption|constructor].
  - constructor; [assumption|].
    apply IH; [exact (descending_tail _ _ Hd)|].
    simpl in Hd. unfold older in *.
    destruct (CreatedAt x) as [t|]; [|discriminate].
    destruct (CreatedAt j) as [u|]; [|discriminate].
    apply andb_true_iff in Hd. destruct Hd as [Hut _].
    unfold Before in *. apply Z.ltb_lt in Hut, Hx. apply Z.ltb_lt. lia.
Qed.

Lemma dated_not_older_fresh (items : list Item) :
  Forall (fun i => exists t, CreatedAt i = Some t) items ->
  Forall (fun i => older since i = false) items ->
  Forall (fun i => fresh since i = true) items.
Proof.
  intros Hd. induction Hd as [|i rest [t Ht] _ IH]; intros Ho; constructor.
  - inversion Ho as [|? ? Hi _]; subst. unfold older, fresh in *.
    rewrite Ht in *. now rewrite Hi.
  - apply IH. now inversion Ho.
Qed.

Lemma filter_fresh_all (items : list Item) :
  Forall (fun i => fresh since i = true) items ->
  filter (fresh since) items = items.
Proof.
  induction 1 as [|i rest Hi _ IH]; simpl; [reflexivity|].
  now rewrite Hi, IH.
Qed.

Lemma filter_fresh_none (items : list Item) :
  Forall (fun i => older since i = true) items ->
  filter (fresh since) items = [].
Proof.
  induction 1 as [|i rest Hi _ IH]; simpl; [reflexivity|].
  now rewrite (older_not_fresh _ Hi).
Qed.

End RangeFacts.

(** ** Properties of the outer loop *)

Section LoopFacts.

Context {Remote Item : Type} `{Dated Item}.
Variable CmdFlags : Flags.
Variable fetchPage : Endpoint Remote Item.
Variable since : Time.

(** More fuel does not change the result of a run that has one. *)
Lemma loop_more_fuel (fuel fuel' : nat) (st : Loop Remote Item)
    (res : Outcome * Loop Remote Item) :
  loop CmdFlags fetchPage since fuel st = Some res ->
  (fuel <= fuel')%nat ->
  loop CmdFlags fetchPage since fuel' st = Some res.
Proof.
  revert fuel' st.
  induction fuel as [|fuel IH]; intros fuel' st Hrun Hle; [discriminate|].
  destruct fuel' as [|fuel']; [lia|]. simpl in *.
  destruct (iteration CmdFlags fetchPage since st); [|assumption].
  apply IH; [assumption|lia].
Qed.

(** Two runs from one state that both end, end alike. *)
Lemma loop_fuel_irrelevant (f1 f2 : nat) (st : Loop Remote Item)
    (res1 res2 : Outcome * Loop Remote Item) :
  loop CmdFlags fetchPage since f1 st = Some res1 ->
  loop CmdFlags fetchPage since f2 st = Some res2 ->
  res1 = res2.
Proof.
  intros H1 H2.
  apply (loop_more_fuel _ (Nat.max f1 f2)) in H1; [|lia].
  apply (loop_more_fuel _ (Nat.max f1 f2)) in H2; [|lia].
  congruence.
Qed.

(** A run is the turns that go on, followed by the rest of the run. *)
Lemma loop_after_advance (k fuel : nat) (st st' : Loop Remote Item) :
  advance CmdFlags fetchPage since k st = Some st' ->
  loop CmdFlags fetchPage since (k + fuel) st
  = loop CmdFlags fetchPage since fuel st'.
Proof.
  revert st. induction k as [|k IH]; intros st Hadv; simpl in *.
  - now inversion Hadv.
  - destruct (iteration CmdFlags fetchPage since st); [|discriminate].
    now apply IH.
Qed.

(** One turn keeps the log of [fn] free of items before the cutoff. *)
Lemma iteration_keeps_fresh (st : Loop Remote Item) :
  fresh_log since st ->
  match iteration CmdFlags fetchPage since st with
  | Next st' => fresh_log since st'
  | Halt _ st' => fresh_log since st'
  end.
Proof.
  unfold fresh_log, iteration. intros Hlog.
  destruct (fetchPage _ _ _ _) as [[[items response] err] r'].
  destruct err as [e|]; [exact Hlog|].
  pose proof (rangeItems_keeps_fresh since items (calls st) Hlog) as Hkeep.
  destruct (rangeItems since items (calls st)) as [[|o] log]; simpl in *.
  - now destruct (NextPage response =? 0).
  - assumption.
Qed.

Lemma advance_keeps_fresh (k : nat) (st st' : Loop Remote Item) :
  fresh_log since st ->
  advance CmdFlags fetchPage since k st = Some st' ->
  fresh_log since st'.
Proof.
  revert st. induction k as [|k IH]; intros st Hlog Hadv; simpl in Hadv.
  - now inversion Hadv; subst.
  - pose proof (iteration_keeps_fresh st Hlog) as Hturn.
    destruct (iteration CmdFlags fetchPage since st); [|discriminate].
    now apply (IH st0).
Qed.

Lemma loop_keeps_fresh (fuel : nat) (st st' : Loop Remote Item) (o : Outcome) :
  fresh_log since st ->
  loop CmdFlags fetchPage since fuel st = Some (o, st') ->
  fresh_log since st'.
Proof.
  revert st. induction fuel as [|fuel IH]; intros st Hlog Hrun; [discriminate|].
  simpl in Hrun. pose proof (iteration_keeps_fresh st Hlog) as Hturn.
  destruct (iteration CmdFlags fetchPage since st).
  - now apply (IH st0).
  - now inversion Hrun; subst.
Qed.

(** On a served page sequence a run does what [walk] reads off the
    pages. *)
Lemma serves_walk (r : Remote) (c : Z) (pages : list (list Item)) :
  serves CmdFlags fetchPage r c pages ->
  forall (st : Loop Remote Item) (fuel : nat),
    remote st = r ->
    options st = optionsAt c ->
    (List.length pages <= fuel)%nat ->
    exists st',
      loop CmdFlags fetchPage since fuel st = Some (fst (fst (walk since pages)), st') /\
      calls st' = calls st ++ snd (fst (walk since pages)) /\
      List.length (requests st') = (List.length (requests st) + snd (walk since pages))%nat.
Proof.
  induction 1 as [r c items response r' Hfetch Hlast
                 |r c items response r' pages Hfetch Hnext Hrest IH];
    intros st fuel Hr Ho Hfuel.
  - destruct fuel as [|fuel]; [simpl in Hfuel; lia|].
    simpl. unfold iteration. rewrite Hr, Ho, Hfetch.
    rewrite (rangeItems_log since items (calls st)).
    destruct (rangeItems since items []) as [[|o] log]; simpl.
    + rewrite Hlast. simpl. eexists. split; [reflexivity|]. simpl.
      split; [reflexivity|]. rewrite length_app. reflexivity.
    + eexists. split; [reflexivity|]. simpl.
      split; [reflexivity|]. rewrite length_app. reflexivity.
  - destruct fuel as [|fuel]; [simpl in Hfuel; lia|].
    simpl in Hfuel.
    assert (Hpages : exists p ps, pages = p :: ps).
    { inversion Hrest; subst; eauto. }
    destruct Hpages as (p & ps & ->).
    simpl loop. unfold iteration. rewrite Hr, Ho, Hfetch.
    rewrite (rangeItems_log since items (calls st)).
    change (walk since (items :: p :: ps)) with
      (match rangeItems since items [] with
       | (Return o, log) => (o, log, 1%nat)
       | (Fallthrough, log) =>
           let '(o, log', n) := walk since (p :: ps) in (o, log ++ log', S n)
       end).
    remember (walk since (p :: ps)) as w eqn:Hw. clear Hw.
    destruct (rangeItems since items []) as [[|o] log]; simpl fst; simpl snd.
    + apply Z.eqb_neq in Hnext. rewrite Hnext.
      match goal with
      | |- context [loop _ _ _ fuel ?s] => destruct (IH s fuel) as (st' & Hrun & Hcalls & Hreq)
      end; [reflexivity|reflexivity|simpl; simpl in Hfuel; lia|].
      destruct w as [[o' log'] n]. simpl in *.
      exists st'. split; [assumption|]. split.
      * now rewrite Hcalls, app_assoc.
      * rewrite Hreq, length_app. simpl. lia.
    + eexists. split; [reflexivity|]. simpl.
      split; [reflexivity|]. rewrite length_app. reflexivity.
Qed.

End LoopFacts.

(** ** What [walk] does on the page sequences of interest *)

Section WalkFacts.

Context {Item : Type} `{Dated Item}.
Variable since : Time.

Lemma walk_cons (p q : list Item) (more : list (list Item)) :
  walk since (p :: q :: more)
  = match rangeItems since p [] with
    | (Return o, log) => (o, log, 1%nat)
    | (Fallthrough, log) =>
        let '(o, log', n) := walk since (q :: more) in (o, log ++ log', S n)
    end.
Proof. reflexivity. Qed.

Lemma walk_last (p : list Item) :
  walk since [p]
  = match rangeItems since p [] with
    | (Return o, log) => (o, log, 1%nat)
    | (Fallthrough, log) => (Returned None, log, 1%nat)
    end.
Proof. reflexivity. Qed.

(** Every item at or after the cutoff: all pages, all items, in order. *)
Lemma walk_fresh (pages : list (list Item)) :
  pages <> [] ->
  Forall (fun i => fresh since i = true) (List.concat pages) ->
  walk since pages = (Returned None, List.concat pages, List.length pages).
Proof.
  induction pages as [|p pages IH]; intros Hne Hall; [congruence|].
  simpl List.concat in Hall. apply Forall_app in Hall. destruct Hall as [Hp Hrest].
  destruct pages as [|q more].
  - rewrite walk_last, (rangeItems_fresh since p [] Hp). simpl.
    now rewrite app_nil_r.
  - rewrite walk_cons, (rangeItems_fresh since p [] Hp), IH;
      [reflexivity|discriminate|assumption].
Qed.

(** A first item before the cutoff: the items ahead of it, and no page
    behind its own. *)
Lemma walk_older (ps1 ps2 : list (list Item)) (a b : list Item) (x : Item) :
  Forall (fun i => fresh since i = true) (List.concat ps1 ++ a) ->
  older since x = true ->
  walk since (ps1 ++ (a ++ x :: b) :: ps2)
  = (Returned None, List.concat ps1 ++ a, S (List.length ps1)).
Proof.
  intros Hall Hx. induction ps1 as [|p ps1 IH].
  - cbn [app List.concat List.length] in *.
    destruct ps2; [rewrite walk_last|rewrite walk_cons];
      now rewrite (rangeItems_older since a b [] x Hall Hx).
  - simpl List.concat in Hall. rewrite <- app_assoc in Hall.
    apply Forall_app in Hall. destruct Hall as [Hp Hrest].
    assert (Hshape : exists q more, ps1 ++ (a ++ x :: b) :: ps2 = q :: more).
    { destruct ps1; simpl; eauto. }
    destruct Hshape as (q & more & Hshape).
    simpl app. rewrite Hshape, walk_cons, <- Hshape.
    rewrite (rangeItems_fresh since p [] Hp), (IH Hrest). simpl.
    now rewrite app_assoc.
Qed.

(** Every item before the cutoff: nothing is handed to [fn]. *)
Lemma walk_all_older (pages : list (list Item)) :
  Forall (fun i => older since i = true) (List.concat pages) ->
  fst (fst (walk since pages)) = Returned None /\ snd (fst (walk since pages)) = [].
Proof.
  induction pages as [|p pages IH]; intros Hall; [now split|].
  simpl List.concat in Hall. apply Forall_app in Hall. destruct Hall as [Hp Hrest].
  destruct p as [|x b].
  - destruct pages as [|q more]; [now split|].
    rewrite walk_cons. simpl rangeItems.
    destruct (IH Hrest) as [Ho Hlog].
    destruct (walk since (q :: more)) as [[o log] n]. simpl in *. now subst.
  - inversion Hp as [|? ? Hx _]; subst.
    pose proof (rangeItems_older since [] b [] x (Forall_nil _) Hx) as Hrange.
    simpl app in Hrange.
    destruct pages as [|q more]; [rewrite walk_last|rewrite walk_cons];
      rewrite Hrange; now split.
Qed.

(** No more requests than pages. *)
Lemma walk_count (pages : list (list Item)) :
  (snd (walk since pages) <= List.length pages)%nat.
Proof.
  induction pages as [|p pages IH]; [simpl; lia|].
  destruct pages as [|q more].
  - rewrite walk_last. destruct (rangeItems since p []) as [[|o] log]; simpl; lia.
  - rewrite walk_cons. destruct (rangeItems since p []) as [[|o] log].
    + destruct (walk since (q :: more)) as [[o log'] n]. simpl in *. lia.
    + simpl. lia.
Qed.

(** Pages of [perPage] items each hold [perPage] items per page. *)
Lemma full_pages_size (perPage : nat) (pages : list (list Item)) :
  Forall (fun p => List.length p = perPage) pages ->
  List.length (List.concat pages) = (List.length pages * perPage)%nat.
Proof.
  induction 1 as [|p pages Hp _ IH]; simpl; [reflexivity|].
  rewrite length_app, IH, Hp. reflexivity.
Qed.

End WalkFacts.

(** ** Further facts about single pages and single turns *)

Section MoreFacts.

Context {Remote Item : Type} `{Dated Item}.
Variable CmdFlags : Flags.
Variable fetchPage : Endpoint Remote Item.
Variable since : Time.

Lemma fresh_iff (i : Item) :
  fresh since i = true <-> exists t, CreatedAt i = Some t /\ since <= t.
Proof.
  unfold fresh, Before. destruct (CreatedAt i) as [t|].
  - rewrite negb_true_iff, Z.ltb_ge. split.
    + intros Hle. now exists t.
    + intros (u & Hu & Hle). now inversion Hu; subst.
  - split; [discriminate|]. now intros (u & Hu & _).
Qed.

Lemma older_iff (i : Item) :
  older since i = true <-> exists t, CreatedAt i = Some t /\ t < since.
Proof.
  unfold older, Before. destruct (CreatedAt i) as [t|].
  - rewrite Z.ltb_lt. split.
    + intros Hlt. now exists t.
    + intros (u & Hu & Hlt). now inversion Hu; subst.
  - split; [discriminate|]. now intros (u & Hu & _).
Qed.

(** The [range] loop passes the items at or after the cutoff. *)
Lemma rangeItems_app_fresh (a b log : list Item) :
  Forall (fun i => fresh since i = true) a ->
  rangeItems since (a ++ b) log = rangeItems since b (log ++ a).
Proof.
  intros Hall. revert log.
  induction Hall as [|i rest Hi _ IH]; intros log; simpl.
  - now rewrite app_nil_r.
  - unfold fresh in Hi. destruct (CreatedAt i) as [t|]; [|discriminate].
    destruct (Before t since); [discriminate|].
    rewrite IH, <- app_assoc. reflexivity.
Qed.

Lemma concat_around (ps1 ps2 : list (list Item)) (a b : list Item) (x : Item) :
  List.concat (ps1 ++ (a ++ x :: b) :: ps2)
  = (List.concat ps1 ++ a) ++ x :: (b ++ List.concat ps2).
Proof.
  rewrite concat_app. simpl. now rewrite <- !app_assoc.
Qed.

(** An item at or after the cutoff that follows only such items in the
    page sequence is handed to [fn], right after them. *)
Lemma walk_reaches (ps1 ps2 : list (list Item)) (a b : list Item) (x : Item) :
  Forall (fun i => fresh since i = true) (List.concat ps1 ++ a) ->
  fresh since x = true ->
  exists tail,
    snd (fst (walk since (ps1 ++ (a ++ x :: b) :: ps2)))
    = (List.concat ps1 ++ a) ++ x :: tail.
Proof.
  intros Hall Hx. induction ps1 as [|p ps1 IH].
  - cbn [app List.concat] in *.
    assert (Hax : Forall (fun i => fresh since i = true) (a ++ [x])).
    { apply Forall_app. split; [assumption|]. now constructor. }
    pose proof (rangeItems_app_fresh (a ++ [x]) b [] Hax) as Hrange.
    rewrite <- app_assoc in Hrange. simpl in Hrange.
    rewrite (rangeItems_log since b) in Hrange.
    destruct ps2 as [|q more]; [rewrite walk_last|rewrite walk_cons];
      rewrite Hrange; destruct (fst (rangeItems since b [])).
    + eexists. simpl. now rewrite <- app_assoc.
    + eexists. simpl. now rewrite <- app_assoc.
    + destruct (walk since (q :: more)) as [[o log'] n].
      eexists. simpl. rewrite <- !app_assoc. reflexivity.
    + eexists. simpl. now rewrite <- app_assoc.
  - simpl List.concat in Hall. rewrite <- app_assoc in Hall.
    apply Forall_app in Hall. destruct Hall as [Hp Hrest].
    destruct (IH Hrest) as [tail Htail].
    assert (Hshape : exists q more, ps1 ++ (a ++ x :: b) :: ps2 = q :: more).
    { destruct ps1; simpl; eauto. }
    destruct Hshape as (q & more & Hshape).
    simpl app. rewrite Hshape, walk_cons, <- Hshape.
    rewrite (rangeItems_fresh since p [] Hp).
    destruct (walk since (ps1 ++ (a ++ x :: b) :: ps2)) as [[o log'] n].
    simpl in *. subst log'. exists tail. now rewrite <- !app_assoc.
Qed.

(** Every complete turn makes one request. *)
Lemma advance_requests (k : nat) (st st' : Loop Remote Item) :
  advance CmdFlags fetchPage since k st = Some st' ->
  List.length (requests st') = (List.length (requests st) + k)%nat.
Proof.
  revert st. induction k as [|k IH]; intros st Hadv; simpl in Hadv.
  - inversion Hadv; subst. lia.
  - destruct (iteration CmdFlags fetchPage since st) as [st1|] eqn:Hturn;
      [|discriminate].
    rewrite (IH _ Hadv). unfold iteration in Hturn.
    destruct (fetchPage _ _ _ _) as [[[items response] err] r'].
    destruct err; [discriminate|].
    destruct (rangeItems since items (calls st)) as [[|o] log]; [|discriminate].
    destruct (NextPage response =? 0); [discriminate|].
    inversion Hturn; subst. simpl. rewrite length_app. simpl. lia.
Qed.

(** The request answered with no next page is the last of the run. *)
Lemma last_page_ends_run (st : Loop Remote Item) (items : list Item)
    (response : Response) (r' : Remote) (fuel : nat) :
  fetchPage (remote st) (Organization CmdFlags) (Repository CmdFlags) (options st)
    = (items, response, None, r') ->
  NextPage response = 0 ->
  exists o st',
    loop CmdFlags fetchPage since (S fuel) st = Some (o, st') /\
    requests st' = requests st ++ [Page (Paging (options st))].
Proof.
  intros Hfetch Hlast. simpl. unfold iteration. rewrite Hfetch, Hlast.
  destruct (rangeItems since items (calls st)) as [[|o] log]; simpl; eauto.
Qed.

(** A chain of [n] requests bounds the run. *)
Lemma chain_bounds_loop (r : Remote) (c : Z) (n : nat) :
  chain CmdFlags fetchPage since r c n ->
  forall (st : Loop Remote Item) (fuel : nat),
    remote st = r ->
    options st = optionsAt c ->
    (n <= fuel)%nat ->
    exists o st',
      loop CmdFlags fetchPage since fuel st = Some (o, st') /\
      (List.length (requests st') <= List.length (requests st) + n)%nat.
Proof.
  induction 1 as [r c items response e r' Hfetch
                 |r c items response r' Hfetch Hlast
                 |r c items response r' o Hfetch Hcut
                 |r c items response r' n Hfetch Hnext Hrest IH];
    intros st fuel Hr Ho Hfuel;
    (destruct fuel as [|fuel]; [lia|]);
    simpl; unfold iteration; rewrite Hr, Ho, Hfetch.
  - do 2 eexists. split; [reflexivity|]. simpl. rewrite length_app. simpl. lia.
  - rewrite Hlast.
    destruct (rangeItems since items (calls st)) as [[|o] log]; simpl;
      do 2 eexists; (split; [reflexivity|]); simpl; rewrite length_app; simpl; lia.
  - rewrite rangeItems_log, Hcut.
    do 2 eexists. split; [reflexivity|]. simpl. rewrite length_app. simpl. lia.
  - rewrite rangeItems_log.
    destruct (fst (rangeItems since items [])) as [|o].
    + apply Z.eqb_neq in Hnext. rewrite Hnext.
      match goal with
      | |- context [loop _ _ _ fuel ?s] =>
          destruct (IH s fuel) as (o & st' & Hrun & Hreq)
      end; [reflexivity|reflexivity|lia|].
      exists o, st'. split; [assumption|].
      simpl in Hreq. rewrite length_app in Hreq. simpl in Hreq. lia.
    + do 2 eexists. split; [reflexivity|]. simpl. rewrite length_app. simpl. lia.
Qed.

End MoreFacts.

(** ** The traversal contract *)

Section Contract.

Context {Remote Item : Type} `{Dated Item}.
Variable CmdFlags : Flags.
Variable fetchPage : Endpoint Remote Item.
Variable since : Time.

(** C1. On pages whose items are in strictly descending order of
    creation date, with [x] the first item created before the cutoff:
    the traversal returns [nil], [fn] was invoked on exactly the items
    ahead of [x], in their order -- not on [x], not on the rest [b] of
    its page, not on a later page [ps2] -- and no page behind the one of
    [x] was asked for.  By the order these are all the items at or after
    the cutoff. *)
Theorem halts_at_first_older (r0 : Remote) (ps1 ps2 : list (list Item))
    (a b : list Item) (x : Item) (fuel : nat) :
  serves CmdFlags fetchPage r0 0 (ps1 ++ (a ++ x :: b) :: ps2) ->
  descending (List.concat (ps1 ++ (a ++ x :: b) :: ps2)) = true ->
  Forall (fun i => older since i = false) (List.concat ps1 ++ a) ->
  older since x = true ->
  (List.length (ps1 ++ (a ++ x :: b) :: ps2) <= fuel)%nat ->
  exists st,
    iterateItems CmdFlags fetchPage since fuel r0 = Some (Returned None, st) /\
    calls st = List.concat ps1 ++ a /\
    List.length (requests st) = S (List.length ps1) /\
    calls st = filter (fresh since) (List.concat (ps1 ++ (a ++ x :: b) :: ps2)).
Proof.
  intros Hserves Hdesc Hfirst Hx Hfuel.
  rewrite concat_around in Hdesc.
  assert (Hpre : Forall (fun i => fresh since i = true) (List.concat ps1 ++ a)).
  { apply dated_not_older_fresh; [|assumption].
    pose proof (descending_dated _ Hdesc) as Hdated.
    apply Forall_app in Hdated. tauto. }
  destruct (serves_walk CmdFlags fetchPage since r0 0 _ Hserves (start r0) fuel
              eq_refl eq_refl Hfuel) as (st & Hrun & Hcalls & Hreq).
  rewrite (walk_older since ps1 ps2 a b x Hpre Hx) in Hrun, Hcalls, Hreq.
  simpl in Hrun, Hcalls, Hreq.
  exists st. repeat split; try assumption.
  rewrite Hcalls, concat_around, filter_app.
  rewrite (filter_fresh_all since _ Hpre), filter_fresh_none, app_nil_r;
    [reflexivity|].
  apply descending_older; [|assumption].
  exact (descending_app_r _ _ Hdesc).
Qed.

(** C2. When the request of some turn fails -- after [k] complete turns,
    in the state [st] -- the traversal returns that very error; the log
    of [fn] is the one of the [k] turns before, with nothing of the
    failed request added; and the failed request is the last one, the
    [k+1]-th: none is made after it, and it is not made again. *)
Theorem fetch_error_aborts (r0 : Remote) (k : nat) (st : Loop Remote Item)
    (items : list Item) (response : Response) (e : error) (r' : Remote)
    (fuel : nat) :
  advance CmdFlags fetchPage since k (start r0) = Some st ->
  fetchPage (remote st) (Organization CmdFlags) (Repository CmdFlags) (options st)
    = (items, response, Some e, r') ->
  (k < fuel)%nat ->
  iterateItems CmdFlags fetchPage since fuel r0
    = Some (Returned (Some e),
            {| remote := r';
               options := options st;
               calls := calls st;
               requests := requests st ++ [Page (Paging (options st))] |}) /\
  List.length (requests st) = k.
Proof.
  intros Hadv Hfetch Hfuel. split.
  - unfold iterateItems.
    replace fuel with (k + S (fuel - S k))%nat by lia.
    rewrite (loop_after_advance CmdFlags fetchPage since k _ _ _ Hadv).
    simpl. unfold iteration. now rewrite Hfetch.
  - now rewrite (advance_requests CmdFlags fetchPage since k _ _ Hadv).
Qed.

(** C3. With the cutoff strictly before the creation date of every item
    of a finite page sequence, the traversal asks for every page,
    invokes [fn] on every item once, in the order of the pages, and
    returns [nil]. *)
Theorem cutoff_before_all_visits_all (r0 : Remote) (pages : list (list Item))
    (fuel : nat) :
  serves CmdFlags fetchPage r0 0 pages ->
  Forall (fun i => exists t, CreatedAt i = Some t /\ since < t) (List.concat pages) ->
  (List.length pages <= fuel)%nat ->
  exists st,
    iterateItems CmdFlags fetchPage since fuel r0 = Some (Returned None, st) /\
    calls st = List.concat pages /\
    List.length (requests st) = List.length pages.
Proof.
  intros Hserves Hall Hfuel.
  assert (Hfresh : Forall (fun i => fresh since i = true) (List.concat pages)).
  { eapply Forall_impl; [|exact Hall].
    intros i (t & Ht & Hlt). apply fresh_iff. exists t. split; [assumption|lia]. }
  assert (Hne : pages <> []) by (inversion Hserves; discriminate).
  destruct (serves_walk CmdFlags fetchPage since r0 0 _ Hserves (start r0) fuel
              eq_refl eq_refl Hfuel) as (st & Hrun & Hcalls & Hreq).
  rewrite (walk_fresh since pages Hne Hfresh) in Hrun, Hcalls, Hreq.
  exists st. repeat split; assumption.
Qed.

(** C4. With every item of the page sequence created strictly before
    the cutoff, [fn] is not invoked at all and the traversal returns
    [nil]. *)
Theorem cutoff_after_all_visits_none (r0 : Remote) (pages : list (list Item))
    (fuel : nat) :
  serves CmdFlags fetchPage r0 0 pages ->
  Forall (fun i => exists t, CreatedAt i = Some t /\ t < since) (List.concat pages) ->
  (List.length pages <= fuel)%nat ->
  exists st,
    iterateItems CmdFlags fetchPage since fuel r0 = Some (Returned None, st) /\
    calls st = [].
Proof.
  intros Hserves Hall Hfuel.
  assert (Hold : Forall (fun i => older since i = true) (List.concat pages)).
  { eapply Forall_impl; [|exact Hall]. intros i Hi. now apply older_iff. }
  destruct (serves_walk CmdFlags fetchPage since r0 0 _ Hserves (start r0) fuel
              eq_refl eq_refl Hfuel) as (st & Hrun & Hcalls & _).
  destruct (walk_all_older since pages Hold) as [Ho Hlog].
  rewrite Ho in Hrun. rewrite Hlog in Hcalls.
  exists st. split; assumption.
Qed.

(** C5, as the code has it.  An empty first page whose response reports
    no next page ends the traversal at once: it returns [nil], [fn] was
    not invoked, and the one request for the first page is the only
    one. *)
Theorem empty_first_page_without_next (r0 r' : Remote) (response : Response)
    (fuel : nat) :
  fetchPage r0 (Organization CmdFlags) (Repository CmdFlags) (optionsAt 0)
    = ([], response, None, r') ->
  NextPage response = 0 ->
  iterateItems CmdFlags fetchPage since (S fuel) r0
    = Some (Returned None,
            {| remote := r'; options := optionsAt 0; calls := []; requests := [0] |}).
Proof.
  intros Hfetch Hlast. unfold iterateItems. simpl. unfold iteration. simpl.
  now rewrite Hfetch, Hlast.
Qed.

(** C6. The bound is inclusive.  An item created at the cutoff instant
    itself does not stop the [range] loop: [fn] is invoked on it and the
    loop goes on with the items behind it.  An item stops the loop, with
    no invocation, exactly when its creation date is strictly before the
    cutoff.  And in a traversal, an item created at the cutoff instant
    that only follows items at or after the cutoff gets its invocation,
    right after theirs. *)
Theorem cutoff_is_inclusive :
  (forall (i : Item) (rest log : list Item),
      CreatedAt i = Some since ->
      rangeItems since (i :: rest) log = rangeItems since rest (log ++ [i])) /\
  (forall (i : Item) (t : Time) (rest log : list Item),
      CreatedAt i = Some t ->
      (rangeItems since (i :: rest) log = (Return (Returned None), log) <-> t < since)) /\
  (forall (r0 : Remote) (ps1 ps2 : list (list Item)) (a b : list Item) (x : Item)
          (fuel : nat),
      serves CmdFlags fetchPage r0 0 (ps1 ++ (a ++ x :: b) :: ps2) ->
      Forall (fun i => exists t, CreatedAt i = Some t /\ since <= t)
             (List.concat ps1 ++ a) ->
      CreatedAt x = Some since ->
      (List.length (ps1 ++ (a ++ x :: b) :: ps2) <= fuel)%nat ->
      exists o st tail,
        iterateItems CmdFlags fetchPage since fuel r0 = Some (o, st) /\
        calls st = (List.concat ps1 ++ a) ++ x :: tail).
Proof.
  split; [|split].
  - intros i rest log Hi. simpl. rewrite Hi. unfold Before.
    now rewrite Z.ltb_irrefl.
  - intros i t rest log Hi. simpl. rewrite Hi. unfold Before.
    destruct (t <? since) eqn:Hlt.
    + apply Z.ltb_lt in Hlt. tauto.
    + apply Z.ltb_ge in Hlt. split; [|lia].
      rewrite rangeItems_log. intros Heq. exfalso.
      injection Heq as _ Hlog.
      apply (f_equal (@List.length Item)) in Hlog.
      rewrite !length_app in Hlog. simpl in Hlog. lia.
  - intros r0 ps1 ps2 a b x fuel Hserves Hpre Hx Hfuel.
    assert (Hfresh : Forall (fun i => fresh since i = true) (List.concat ps1 ++ a)).
    { eapply Forall_impl; [|exact Hpre]. intros i Hi. now apply fresh_iff. }
    assert (Hfx : fresh since x = true).
    { apply fresh_iff. exists since. split; [assumption|lia]. }
    destruct (serves_walk CmdFlags fetchPage since r0 0 _ Hserves (start r0) fuel
                eq_refl eq_refl Hfuel) as (st & Hrun & Hcalls & _).
    destruct (walk_reaches since ps1 ps2 a b x Hfresh Hfx) as [tail Htail].
    rewrite Htail in Hcalls.
    now exists (fst (fst (walk since (ps1 ++ (a ++ x :: b) :: ps2)))), st, tail.
Qed.

(** C7. No request follows the one that is answered with no next page:
    when the request of the [k+1]-th turn gets such an answer, the run
    ends in that turn, with [k+1] requests.  So a collection of
    [k * perPage] items served in [k] full pages, the last of which
    reports no next page, is traversed with at most [k] requests, and
    with exactly [k] when no item stops the traversal earlier: there is
    no request for an empty page behind the last. *)
Theorem no_fetch_beyond_last_page (r0 : Remote) :
  (forall (k : nat) (st : Loop Remote Item) (items : list Item)
          (response : Response) (r' : Remote) (fuel : nat),
      advance CmdFlags fetchPage since k (start r0) = Some st ->
      fetchPage (remote st) (Organization CmdFlags) (Repository CmdFlags) (options st)
        = (items, response, None, r') ->
      NextPage response = 0 ->
      (k < fuel)%nat ->
      exists o st',
        iterateItems CmdFlags fetchPage since fuel r0 = Some (o, st') /\
        requests st' = requests st ++ [Page (Paging (options st))] /\
        List.length (requests st') = S k) /\
  (forall (pages : list (list Item)) (perPage fuel : nat),
      serves CmdFlags fetchPage r0 0 pages ->
      Forall (fun p => List.length p = perPage) pages ->
      (0 < perPage)%nat ->
      (List.length pages <= fuel)%nat ->
      exists o st,
        iterateItems CmdFlags fetchPage since fuel r0 = Some (o, st) /\
        (List.length (requests st) <= List.length (List.concat pages) / perPage)%nat /\
        (Forall (fun i => fresh since i = true) (List.concat pages) ->
         o = Returned None /\
         calls st = List.concat pages /\
         List.length (requests st) = (List.length (List.concat pages) / perPage)%nat)).
Proof.
  split.
  - intros k st items response r' fuel Hadv Hfetch Hlast Hfuel.
    destruct (last_page_ends_run CmdFlags fetchPage since st items response r'
                (fuel - S k) Hfetch Hlast) as (o & st' & Hrun & Hreq).
    exists o, st'. split; [|split].
    + unfold iterateItems. replace fuel with (k + S (fuel - S k))%nat by lia.
      now rewrite (loop_after_advance CmdFlags fetchPage since k _ _ _ Hadv).
    + assumption.
    + rewrite Hreq, length_app.
      rewrite (advance_requests CmdFlags fetchPage since k _ _ Hadv). simpl. lia.
  - intros pages perPage fuel Hserves Hfull Hpos Hfuel.
    rewrite (full_pages_size perPage pages Hfull), Nat.div_mul by lia.
    destruct (serves_walk CmdFlags fetchPage since r0 0 _ Hserves (start r0) fuel
                eq_refl eq_refl Hfuel) as (st & Hrun & Hcalls & Hreq).
    exists (fst (fst (walk since pages))), st.
    split; [assumption|]. split.
    + rewrite Hreq. simpl. apply walk_count.
    + intros Hfresh.
      assert (Hne : pages <> []) by (inversion Hserves; discriminate).
      rewrite (walk_fresh since pages Hne Hfresh) in *. now repeat split.
Qed.

(** C8. Two runs with the same scope and cutoff end alike.  From one and
    the same state of the remote side the result does not depend on the
    fuel; and two runs against remotes that serve the same page sequence
    both end, with the same outcome, the same invocations of [fn] in the
    same order, and the same number of requests. *)
Theorem traversal_deterministic :
  (forall (r : Remote) (f1 f2 : nat) (res1 res2 : Outcome * Loop Remote Item),
      iterateItems CmdFlags fetchPage since f1 r = Some res1 ->
      iterateItems CmdFlags fetchPage since f2 r = Some res2 ->
      res1 = res2) /\
  (forall (r r' : Remote) (pages : list (list Item)) (f1 f2 : nat),
      serves CmdFlags fetchPage r 0 pages ->
      serves CmdFlags fetchPage r' 0 pages ->
      (List.length pages <= f1)%nat ->
      (List.length pages <= f2)%nat ->
      exists o st1 st2,
        iterateItems CmdFlags fetchPage since f1 r = Some (o, st1) /\
        iterateItems CmdFlags fetchPage since f2 r' = Some (o, st2) /\
        calls st1 = calls st2 /\
        List.length (requests st1) = List.length (requests st2)).
Proof.
  split.
  - intros r f1 f2 res1 res2.
    apply (loop_fuel_irrelevant CmdFlags fetchPage since).
  - intros r r' pages f1 f2 Hs Hs' Hf1 Hf2.
    destruct (serves_walk CmdFlags fetchPage since r 0 _ Hs (start r) f1
                eq_refl eq_refl Hf1) as (st1 & Hrun1 & Hcalls1 & Hreq1).
    destruct (serves_walk CmdFlags fetchPage since r' 0 _ Hs' (start r') f2
                eq_refl eq_refl Hf2) as (st2 & Hrun2 & Hcalls2 & Hreq2).
    exists (fst (fst (walk since pages))), st1, st2.
    repeat split; try assumption.
    + now rewrite Hcalls1, Hcalls2.
    + now rewrite Hreq1, Hreq2.
Qed.

(** C9. Whatever the remote side answers, in whatever order: at no turn
    of the loop, and at the end of no run, has [fn] been invoked on an
    item created strictly before the cutoff -- every item in its log
    has a creation date at or after the cutoff. *)
Theorem no_call_before_cutoff (r0 : Remote) :
  (forall (k : nat) (st : Loop Remote Item),
      advance CmdFlags fetchPage since k (start r0) = Some st ->
      Forall (fun i => exists t, CreatedAt i = Some t /\ since <= t) (calls st)) /\
  (forall (fuel : nat) (o : Outcome) (st : Loop Remote Item),
      iterateItems CmdFlags fetchPage since fuel r0 = Some (o, st) ->
      Forall (fun i => exists t, CreatedAt i = Some t /\ since <= t) (calls st)).
Proof.
  assert (Hstart : fresh_log since (start r0)) by constructor.
  split.
  - intros k st Hadv.
    pose proof (advance_keeps_fresh CmdFlags fetchPage since k _ _ Hstart Hadv) as Hlog.
    eapply Forall_impl; [|exact Hlog]. intros i Hi. now apply fresh_iff.
  - intros fuel o st Hrun.
    pose proof (loop_keeps_fresh CmdFlags fetchPage since fuel _ _ o Hstart Hrun) as Hlog.
    eapply Forall_impl; [|exact Hlog]. intros i Hi. now apply fresh_iff.
Qed.

(** C10. When the chain of next-page numbers from the first request
    ends within [n] requests -- in no next page, an error, or a page
    that makes the [range] loop return -- the traversal ends, whatever
    fuel of at least [n] it is given, and has made at most [n]
    requests. *)
Theorem traversal_terminates (r0 : Remote) (n fuel : nat) :
  chain CmdFlags fetchPage since r0 0 n ->
  (n <= fuel)%nat ->
  exists o st,
    iterateItems CmdFlags fetchPage since fuel r0 = Some (o, st) /\
    (List.length (requests st) <= n)%nat.
Proof.
  intros Hchain Hfuel.
  exact (chain_bounds_loop CmdFlags fetchPage since r0 0 n Hchain (start r0) fuel
           eq_refl eq_refl Hfuel).
Qed.

End Contract.

(** ** The contract on the sample data *)

(** A concrete [servePages] remote serves its pages. *)
Ltac served :=
  cbn [app];
  repeat first
    [ solve [eapply serves_last; reflexivity]
    | eapply serves_more; [reflexivity | let Hz := fresh in intro Hz; discriminate Hz | ] ].

(** Three issues of 2024-02-01, 2024-01-15 and 2023-12-20 and the cutoff
    2024-01-01: [fn] fires for the first two only. *)
Example three_issues_two_rows :
  exists st,
    iterateIssues acmeWidgets (stubClient [[issue6; issue5; issue3]] []) newYear 1 tt
      = Some (Returned None, st) /\
    calls st = [issue6; issue5].
Proof. eexists. split; reflexivity. Qed.

(** A [nil] creation date makes the traversal panic, after the
    invocations for the items ahead. *)
Example nil_date_panics :
  exists st,
    iterateIssues acmeWidgets
      (stubClient [[issue6; {| IssueNumber := 7; IssueTitle := ""; IssueCreatedAt := None |}]] [])
      newYear 1 tt
      = Some (Panicked, st) /\
    calls st = [issue6].
Proof. eexists. split; reflexivity. Qed.

Lemma halts_at_first_older_witness :
  exists st,
    iteratePullRequests acmeWidgets (stubClient issueHistory pullHistory) newYear 3 tt
      = Some (Returned None, st) /\
    calls st = [pull4; pull3] /\
    List.length (requests st) = 2%nat /\
    calls st = filter (fresh newYear) (List.concat pullHistory).
Proof.
  refine (halts_at_first_older acmeWidgets (servePages pullHistory) newYear tt
            [[pull4]] [[pull0]] [pull3] [pull1] pull2 3 _ _ _ _ _).
  - served.
  - reflexivity.
  - repeat constructor.
  - reflexivity.
  - simpl. lia.
Defined.

Lemma fetch_error_aborts_witness :
  iterateIssues acmeWidgets replayClient newYear 2 (pageThenFailure, [])
    = Some (Returned (Some "connection reset"),
            {| remote := ([], []);
               options := optionsAt 2;
               calls := [issue6; issue5];
               requests := [0; 2] |}) /\
  List.length [0] = 1%nat.
Proof.
  refine (fetch_error_aborts acmeWidgets (Issues_ListByRepo replayClient) newYear
            (pageThenFailure, []) 1
            {| remote := ([([], {| NextPage := 0 |}, Some "connection reset")], []);
               options := optionsAt 2;
               calls := [issue6; issue5];
               requests := [0] |}
            [] {| NextPage := 0 |} "connection reset" ([], []) 2
            eq_refl eq_refl _).
  lia.
Defined.

Lemma cutoff_before_all_visits_all_witness :
  exists st,
    iterateIssues acmeWidgets (stubClient issueHistory pullHistory) (day 19600) 3 tt
      = Some (Returned None, st) /\
    calls st = [issue6; issue5; issue4; issue3; issue2; issue1] /\
    List.length (requests st) = 3%nat.
Proof.
  refine (cutoff_before_all_visits_all acmeWidgets (servePages issueHistory) (day 19600)
            tt issueHistory 3 _ _ _).
  - served.
  - repeat constructor; eexists; (split; [reflexivity|vm_compute; reflexivity]).
  - simpl. lia.
Defined.

Lemma cutoff_after_all_visits_none_witness :
  exists st,
    iterateIssues acmeWidgets (stubClient issuesOf2023 pullHistory) newYear 2 tt
      = Some (Returned None, st) /\
    calls st = [].
Proof.
  refine (cutoff_after_all_visits_none acmeWidgets (servePages issuesOf2023) newYear
            tt issuesOf2023 2 _ _ _).
  - served.
  - repeat constructor; eexists; (split; [reflexivity|vm_compute; reflexivity]).
  - simpl. lia.
Defined.

(** C5 as the claim has it fails: the first page of [emptyThenMore] is
    empty, and yet the traversal does not end with it -- it asks for the
    page that the response names and invokes [fn] on its item. *)
Lemma empty_first_page_counterexample :
  fst (fst (fst (Issues_ListByRepo (stubClient emptyThenMore []) tt
                   "acme" "widgets" (optionsAt 0)))) = [] /\
  iterateIssues acmeWidgets (stubClient emptyThenMore []) newYear 1 tt = None /\
  (exists st,
      iterateIssues acmeWidgets (stubClient emptyThenMore []) newYear 2 tt
        = Some (Returned None, st) /\
      calls st = [issue6] /\
      requests st = [0; 2]) /\
  ~ (exists fuel o st,
        iterateIssues acmeWidgets (stubClient emptyThenMore []) newYear fuel tt
          = Some (o, st) /\
        calls st = [] /\
        List.length (requests st) = 1%nat).
Proof.
  split; [reflexivity|]. split; [reflexivity|]. split.
  - eexists. repeat split; reflexivity.
  - intros (fuel & o & st & Hrun & Hcalls & _).
    assert (Htwo : iterateIssues acmeWidgets (stubClient emptyThenMore []) newYear 2 tt
                   = Some (Returned None,
                           {| remote := tt; options := optionsAt 2;
                              calls := [issue6]; requests := [0; 2] |}))
      by reflexivity.
    pose proof (loop_fuel_irrelevant _ _ _ _ _ _ _ _ Hrun Htwo) as Hsame.
    inversion Hsame; subst. discriminate Hcalls.
Qed.

Lemma empty_first_page_without_next_witness :
  iterateIssues acmeWidgets (stubClient [] pullHistory) newYear 1 tt
    = Some (Returned None,
            {| remote := tt; options := optionsAt 0; calls := []; requests := [0] |}).
Proof.
  refine (empty_first_page_without_next acmeWidgets (servePages []) newYear
            tt tt {| NextPage := 0 |} 0 _ _); reflexivity.
Defined.

Lemma cutoff_is_inclusive_witness :
  rangeItems newYear [issue4; issue3] [issue5]
    = rangeItems newYear [issue3] [issue5; issue4] /\
  (rangeItems newYear [issue3; issue2] [issue4] = (Return (Returned None), [issue4])
   <-> day 19711 < newYear) /\
  exists o st tail,
    iterateIssues acmeWidgets (stubClient issueHistory pullHistory) newYear 3 tt
      = Some (o, st) /\
    calls st = [issue6; issue5; issue4] ++ tail.
Proof.
  destruct (cutoff_is_inclusive acmeWidgets (servePages issueHistory) newYear)
    as (Hgoes & Hstops & Hrun).
  split; [|split].
  - exact (Hgoes issue4 [issue3] [issue5] eq_refl).
  - exact (Hstops issue3 (day 19711) [issue2] [issue4] eq_refl).
  - refine (Hrun tt [[issue6; issue5]] [[issue2; issue1]] [] [issue3] issue4 3%nat _ _ _ _).
    + served.
    + repeat constructor; eexists; (split; [reflexivity|vm_compute; discriminate]).
    + reflexivity.
    + simpl. lia.
Defined.

Lemma no_fetch_beyond_last_page_witness :
  (exists o st',
      iterateIssues acmeWidgets (stubClient issuesOf2024 pullHistory) newYear 2 tt
        = Some (o, st') /\
      requests st' = [0] ++ [2] /\
      List.length (requests st') = 2%nat) /\
  (exists o st,
      iterateIssues acmeWidgets (stubClient issueHistory pullHistory) (day 19600) 3 tt
        = Some (o, st) /\
      (List.length (requests st) <= 6 / 2)%nat /\
      (Forall (fun i => fresh (day 19600) i = true) (List.concat issueHistory) ->
       o = Returned None /\
       calls st = List.concat issueHistory /\
       List.length (requests st) = (6 / 2)%nat)).
Proof.
  split.
  - refine (proj1 (no_fetch_beyond_last_page acmeWidgets (servePages issuesOf2024)
                     newYear tt)
              1%nat
              {| remote := tt; options := optionsAt 2;
                 calls := [issue6; issue5]; requests := [0] |}
              [issue4] {| NextPage := 0 |} tt 2%nat eq_refl eq_refl eq_refl _).
    lia.
  - refine (proj2 (no_fetch_beyond_last_page acmeWidgets (servePages issueHistory)
                     (day 19600) tt)
              issueHistory 2%nat 3%nat _ _ _ _).
    + served.
    + repeat constructor.
    + lia.
    + simpl. lia.
Defined.

Lemma traversal_deterministic_witness :
  exists o st1 st2,
    iterateIssues acmeWidgets (stubClient issueHistory pullHistory) newYear 3 tt
      = Some (o, st1) /\
    iterateIssues acmeWidgets (stubClient issueHistory pullHistory) newYear 4 (remote st1)
      = Some (o, st2) /\
    calls st1 = calls st2 /\
    List.length (requests st1) = List.length (requests st2).
Proof.
  destruct (proj2 (traversal_deterministic acmeWidgets (servePages issueHistory) newYear)
              tt tt issueHistory 3%nat 4%nat)
    as (o & st1 & st2 & Hrun1 & Hrun2 & Hcalls & Hreq).
  - served.
  - served.
  - simpl. lia.
  - simpl. lia.
  - exists o, st1, st2. destruct (remote st1). now repeat split.
Defined.

Lemma no_call_before_cutoff_witness :
  exists o st,
    iterateIssues acmeWidgets (stubClient shuffled []) newYear 2 tt = Some (o, st) /\
    calls st = [issue5; issue6; issue4] /\
    Forall (fun i => exists t, CreatedAt i = Some t /\ newYear <= t) (calls st).
Proof.
  do 2 eexists. split; [reflexivity|]. split; [reflexivity|].
  refine (proj2 (no_call_before_cutoff acmeWidgets (servePages shuffled) newYear tt)
            2%nat (Returned None) _ eq_refl).
Defined.

Lemma traversal_terminates_witness :
  exists o st,
    iterateIssues acmeWidgets replayClient newYear 2 (pageThenFailure, []) = Some (o, st) /\
    (List.length (requests st) <= 2)%nat.
Proof.
  refine (traversal_terminates acmeWidgets (Issues_ListByRepo replayClient) newYear
            (pageThenFailure, []) 2 2 _ _).
  - eapply chain_next; [reflexivity|discriminate|].
    eapply chain_error. reflexivity.
  - lia.
Defined.

(** ** Spreadsheet cells *)

Section Strings.

Local Open Scope string_scope.

Lemma append_assoc (a b c : string) : (a ++ b) ++ c = a ++ (b ++ c).
Proof.
  induction a as [|x a IH]; simpl; [reflexivity|]. now rewrite IH.
Qed.

Lemma length_append (a b : string) :
  String.length (a ++ b) = (String.length a + String.length b)%nat.
Proof.
  induction a as [|x a IH]; simpl; [reflexivity|]. now rewrite IH.
Qed.

Lemma append_cancel_r (a b c : string) : a ++ c = b ++ c -> a = b.
Proof.
  revert b. induction a as [|x a IH]; intros [|y b] Heq; simpl in Heq.
  - reflexivity.
  - apply (f_equal String.length) in Heq. simpl in Heq.
    rewrite length_append in Heq. lia.
  - apply (f_equal String.length) in Heq. simpl in Heq.
    rewrite length_append in Heq. lia.
  - injection Heq as Hxy Hrest. subst y. f_equal. now apply IH.
Qed.

(** Two strings without a double quote, each followed by one, are told
    apart by where that quote stands. *)
Lemma split_at_quote (l1 l2 r1 r2 : string) :
  quoteFree l1 = true ->
  quoteFree l2 = true ->
  l1 ++ String quote r1 = l2 ++ String quote r2 ->
  l1 = l2 /\ r1 = r2.
Proof.
  revert l2. induction l1 as [|x l1 IH]; intros [|y l2] H1 H2 Heq; simpl in *.
  - injection Heq as Hr. now split.
  - injection Heq as Hy _. subst y.
    rewrite Ascii.eqb_refl in H2. discriminate.
  - injection Heq as Hx _. subst x.
    rewrite Ascii.eqb_refl in H1. discriminate.
  - injection Heq as Hxy Hrest. subst y.
    apply andb_true_iff in H1, H2.
    destruct (IH l2 (proj2 H1) (proj2 H2) Hrest) as [Hl Hr].
    split; [now f_equal|assumption].
Qed.

End Strings.

(** X1. A cell made by [googleSheetHyperlink] from a link without a double
    quote determines that link and the text shown for the value. *)
Theorem hyperlink_unambiguous (v1 v2 : Value) (link1 link2 : string) :
  quoteFree link1 = true ->
  quoteFree link2 = true ->
  googleSheetHyperlink v1 link1 = googleSheetHyperlink v2 link2 ->
  link1 = link2 /\ formatValue v1 = formatValue v2.
Proof.
  intros H1 H2 Heq. unfold googleSheetHyperlink in Heq.
  simpl in Heq. injection Heq as Heq.
  destruct (split_at_quote _ _ _ _ H1 H2 Heq) as [Hlink Hrest].
  split; [assumption|].
  injection Hrest as Hrest.
  exact (append_cancel_r _ _ _ Hrest).
Qed.

(** X2. [googleSheetHyperlink] does not escape: a double quote in the link
    ends the first argument of the formula, so that a link that goes on
    with a quote, a comma and a quoted text gives the cell of the shorter
    link with a longer text. *)
Theorem hyperlink_does_not_escape (link text label : string) :
  googleSheetHyperlink (VString label)
    (link ++ String quote (", " ++ String quote text))%string
  = googleSheetHyperlink
      (VString (text ++ String quote (", " ++ String quote label))%string) link.
Proof.
  unfold googleSheetHyperlink, formatValue. simpl.
  rewrite !append_assoc. simpl. reflexivity.
Qed.

(** ** The choice of credentials *)

Lemma nonEmpty_false (s : string) : nonEmpty s = false <-> s = ""%string.
Proof.
  unfold nonEmpty. destruct s; simpl; split; intros Hs; try reflexivity; discriminate.
Qed.

Lemma nonEmpty_true (s : string) : nonEmpty s = true <-> s <> ""%string.
Proof.
  unfold nonEmpty. destruct s; simpl; split; intros Hs; try discriminate; try reflexivity.
  now contradiction Hs.
Qed.

Lemma client_nil_iff (env : Env) (CmdFlags : Flags) :
  gitHubHTTPClient env CmdFlags = None <->
  Getenv env GitHubTokenEnvVarName = ""%string /\
  (Username CmdFlags = ""%string \/ Password CmdFlags = ""%string).
Proof.
  unfold gitHubHTTPClient.
  destruct (nonEmpty (Getenv env GitHubTokenEnvVarName)) eqn:Htoken.
  - split; [discriminate|]. intros [Hnone _].
    apply nonEmpty_false in Hnone. congruence.
  - apply nonEmpty_false in Htoken.
    destruct (nonEmpty (Username CmdFlags)) eqn:Huser;
      destruct (nonEmpty (Password CmdFlags)) eqn:Hpass; simpl.
    + split; [discriminate|]. intros [_ [Hempty|Hempty]];
        apply nonEmpty_false in Hempty; congruence.
    + apply nonEmpty_false in Hpass. tauto.
    + apply nonEmpty_false in Huser. tauto.
    + apply nonEmpty_false in Huser. tauto.
Qed.

(** X3. [gitHubHTTPClient]: a token in the environment is used whatever
    the username and the password are; without one, basic authentication
    is used when both username and password are there; and the client is
    [nil] exactly when there is no token and the username or the password
    is missing. *)
Theorem gitHubHTTPClient_choice (env : Env) (CmdFlags : Flags) :
  (Getenv env GitHubTokenEnvVarName <> ""%string ->
   gitHubHTTPClient env CmdFlags
   = Some (OAuth2Client (Getenv env GitHubTokenEnvVarName))) /\
  (Getenv env GitHubTokenEnvVarName = ""%string ->
   Username CmdFlags <> ""%string ->
   Password CmdFlags <> ""%string ->
   gitHubHTTPClient env CmdFlags
   = Some (BasicAuthClient (Username CmdFlags) (Password CmdFlags))) /\
  (gitHubHTTPClient env CmdFlags = None <->
   Getenv env GitHubTokenEnvVarName = ""%string /\
   (Username CmdFlags = ""%string \/ Password CmdFlags = ""%string)).
Proof.
  split; [|split]; [unfold gitHubHTTPClient..|].
  - intros Htoken. apply nonEmpty_true in Htoken. now rewrite Htoken.
  - intros Htoken Huser Hpass.
    apply nonEmpty_false in Htoken. apply nonEmpty_true in Huser, Hpass.
    now rewrite Htoken, Huser, Hpass.
  - apply client_nil_iff.
Qed.

(** X4. [GitHubHTTPClient] of the earlier revision gives the client of
    the token, and [nil] exactly when the token is unset or empty; the
    later [gitHubHTTPClient] chooses the same whenever the username or the
    password is missing. *)
Theorem GitHubHTTPClient_agrees (env : Env) (CmdFlags : Flags) :
  (GitHubHTTPClient env = None <-> Getenv env GitHubTokenEnvVarName = ""%string) /\
  (Getenv env GitHubTokenEnvVarName <> ""%string ->
   GitHubHTTPClient env = Some (OAuth2Client (Getenv env GitHubTokenEnvVarName))) /\
  (Username CmdFlags = ""%string \/ Password CmdFlags = ""%string ->
   gitHubHTTPClient env CmdFlags = GitHubHTTPClient env).
Proof.
  unfold GitHubHTTPClient, gitHubHTTPClient, nonEmpty.
  destruct (Getenv env GitHubTokenEnvVarName) as [|c token]; simpl.
  - split; [tauto|]. split; [congruence|].
    intros [Hempty|Hempty]; rewrite Hempty; simpl; [reflexivity|].
    now rewrite andb_false_r.
  - split; [split; discriminate|]. split; reflexivity.
Qed.

(** ** The callback and the log of its invocations *)

Section CallbackFacts.

Context {Remote Item Sink : Type} `{Dated Item}.
Variable CmdFlags : Flags.
Variable fetchPage : Endpoint Remote Item.
Variable since : Time.
Variable fn : Item -> Sink -> Called Sink.

Lemma feed_app (a b : list Item) (s : Sink) :
  feed fn (a ++ b) s
  = match feed fn a s with
    | Done s' => feed fn b s'
    | Panics s' => Panics s'
    end.
Proof.
  revert s. induction a as [|i a IH]; intros s; simpl; [reflexivity|].
  destruct (fn i s); [apply IH|reflexivity].
Qed.

(** The sink of the [range] loop is the log fed to [fn]; a call that
    panics is the last of the log. *)
Lemma rangeWith_feed (items log : list Item) (s0 s : Sink) :
  feed fn log s0 = Done s ->
  match rangeWith since fn items log s with
  | (c, log', s') =>
      feed fn log' s0 = Done s' \/
      (c = Return Panicked /\
       exists pre x s1,
         log' = pre ++ [x] /\ feed fn pre s0 = Done s1 /\ fn x s1 = Panics s')
  end.
Proof.
  revert log s. induction items as [|i rest IH]; intros log s Hfed; simpl.
  - now left.
  - destruct (CreatedAt i) as [t|]; [|now left].
    destruct (Before t since); [now left|].
    destruct (fn i s) as [s'|s'] eqn:Hcall.
    + apply IH. rewrite feed_app, Hfed. simpl. now rewrite Hcall.
    + right. split; [reflexivity|]. now exists log, i, s.
Qed.

Lemma loopWith_feed (fuel : nat) (st st' : Loop Remote Item) (s0 s s' : Sink)
    (o : Outcome) :
  feed fn (calls st) s0 = Done s ->
  loopWith CmdFlags fetchPage since fn fuel st s = Some (o, st', s') ->
  feed fn (calls st') s0 = Done s' \/
  (o = Panicked /\
   exists pre x s1,
     calls st' = pre ++ [x] /\ feed fn pre s0 = Done s1 /\ fn x s1 = Panics s').
Proof.
  revert st s. induction fuel as [|fuel IH]; intros st s Hfed Hrun; [discriminate|].
  simpl in Hrun. unfold iterationWith in Hrun.
  destruct (fetchPage _ _ _ _) as [[[items response] err] r'].
  destruct err as [e|].
  - inversion Hrun; subst. now left.
  - pose proof (rangeWith_feed items (calls st) s0 s Hfed) as Hrange.
    destruct (rangeWith since fn items (calls st) s) as [[[|o'] log] s1].
    + destruct Hrange as [Hdone|[Hc _]]; [|discriminate].
      destruct (NextPage response =? 0).
      * inversion Hrun; subst. now left.
      * refine (IH _ _ _ Hrun). exact Hdone.
    + inversion Hrun; subst.
      destruct Hrange as [Hdone|[Hc Hpanic]]; [now left|].
      right. split; [congruence|assumption].
Qed.

(** Without a panic of [fn], the [range] loop is [rangeItems] with the
    items it passes fed to [fn]. *)
Lemma rangeWith_quiet (items log : list Item) (s : Sink) :
  Forall (fun i => forall s, exists s', fn i s = Done s')
         (snd (rangeItems since items [])) ->
  exists s',
    feed fn (snd (rangeItems since items [])) s = Done s' /\
    rangeWith since fn items log s
    = (fst (rangeItems since items []), log ++ snd (rangeItems since items []), s').
Proof.
  revert log s. induction items as [|i rest IH]; intros log s Hok; simpl in *.
  - exists s. now rewrite app_nil_r.
  - destruct (CreatedAt i) as [t|]; simpl in *;
      [|exists s; now rewrite app_nil_r].
    destruct (Before t since); simpl in *; [exists s; now rewrite app_nil_r|].
    rewrite rangeItems_log in Hok. simpl in Hok.
    inversion Hok as [|? ? Hi Hrest]; subst.
    destruct (Hi s) as [s1 Hcall].
    destruct (IH (log ++ [i]) s1 Hrest) as (s' & Hfed & Hrange).
    exists s'. rewrite (rangeItems_log since rest [i]). simpl.
    rewrite Hcall, Hrange, <- app_assoc. now split.
Qed.

Lemma loopWith_quiet (fuel : nat) (st st' : Loop Remote Item) (o : Outcome) :
  loop CmdFlags fetchPage since fuel st = Some (o, st') ->
  exists v,
    calls st' = calls st ++ v /\
    forall s,
      Forall (fun i => forall s, exists s', fn i s = Done s') v ->
      exists s',
        feed fn v s = Done s' /\
        loopWith CmdFlags fetchPage since fn fuel st s = Some (o, st', s').
Proof.
  revert st. induction fuel as [|fuel IH]; intros st Hrun; [discriminate|].
  simpl in Hrun. simpl loopWith. unfold iteration in Hrun. unfold iterationWith.
  destruct (fetchPage _ _ _ _) as [[[items response] err] r'].
  destruct err as [e|].
  - inversion Hrun; subst. exists []. simpl. split; [now rewrite app_nil_r|].
    intros s _. now exists s.
  - rewrite rangeItems_log in Hrun.
    pose proof (fun s => rangeWith_quiet items (calls st) s) as Hrange.
    destruct (rangeItems since items []) as [[|o'] v1]; simpl in Hrun, Hrange.
    + destruct (NextPage response =? 0).
      * inversion Hrun; subst. exists v1. split; [reflexivity|].
        intros s Hok. destruct (Hrange s Hok) as (s' & Hfed & Heq).
        exists s'. now rewrite Heq.
      * destruct (IH _ Hrun) as (v2 & Hcalls & Hnext). simpl in Hcalls.
        exists (v1 ++ v2). split; [now rewrite Hcalls, app_assoc|].
        intros s Hok. apply Forall_app in Hok. destruct Hok as [Hok1 Hok2].
        destruct (Hrange s Hok1) as (s1 & Hfed1 & Heq).
        destruct (Hnext s1 Hok2) as (s' & Hfed2 & Hloop).
        exists s'. rewrite Heq, feed_app, Hfed1. now split.
    + inversion Hrun; subst. exists v1. split; [reflexivity|].
      intros s Hok. destruct (Hrange s Hok) as (s' & Hfed & Heq).
      exists s'. now rewrite Heq.
Qed.

Lemma rangeWith_keeps_fresh (items log : list Item) (s : Sink) :
  Forall (fun i => fresh since i = true) log ->
  Forall (fun i => fresh since i = true)
         (snd (fst (rangeWith since fn items log s))).
Proof.
  revert log s. induction items as [|i rest IH]; intros log s Hlog; simpl; [assumption|].
  destruct (CreatedAt i) as [t|] eqn:Hc; [|assumption].
  destruct (Before t since) eqn:Hb; [assumption|].
  assert (Hmore : Forall (fun i => fresh since i = true) (log ++ [i])).
  { apply Forall_app. split; [assumption|].
    constructor; [|constructor]. unfold fresh. now rewrite Hc, Hb. }
  destruct (fn i s); [now apply IH|assumption].
Qed.

(** A run with the callback keeps the log free of items before the
    cutoff, and makes a request before it ends. *)
Lemma loopWith_keeps_fresh (fuel : nat) (st st' : Loop Remote Item) (s s' : Sink)
    (o : Outcome) :
  fresh_log since st ->
  loopWith CmdFlags fetchPage since fn fuel st s = Some (o, st', s') ->
  fresh_log since st' /\ (List.length (requests st) < List.length (requests st'))%nat.
Proof.
  unfold fresh_log.
  revert st s. induction fuel as [|fuel IH]; intros st s Hlog Hrun; [discriminate|].
  simpl in Hrun. unfold iterationWith in Hrun.
  destruct (fetchPage _ _ _ _) as [[[items response] err] r'].
  destruct err as [e|].
  - inversion Hrun; subst. simpl. rewrite length_app. simpl. split; [assumption|lia].
  - pose proof (rangeWith_keeps_fresh items (calls st) s Hlog) as Hkeep.
    destruct (rangeWith since fn items (calls st) s) as [[[|o'] log] s1]; simpl in Hkeep.
    + destruct (NextPage response =? 0).
      * inversion Hrun; subst. simpl. rewrite length_app. simpl.
        split; [assumption|lia].
      * destruct (IH _ _ (Hkeep : Forall _ (calls (Build_Loop r' _ log _))) Hrun)
          as [Hfresh Hlen]. simpl in Hlen.
        rewrite length_app in Hlen. simpl in Hlen. split; [assumption|lia].
    + inversion Hrun; subst. simpl. rewrite length_app. simpl.
      split; [assumption|lia].
Qed.

(** The first panic of [fn] among the items that [rangeItems] passes
    ends the [range] loop, with that item the last of the log. *)
Lemma rangeWith_panics (items log pre post : list Item) (x : Item) (s : Sink) :
  snd (rangeItems since items []) = pre ++ x :: post ->
  Forall (fun i => forall s, exists s', fn i s = Done s') pre ->
  (forall s, exists s', fn x s = Panics s') ->
  exists s1 s2,
    feed fn pre s = Done s1 /\
    fn x s1 = Panics s2 /\
    rangeWith since fn items log s = (Return Panicked, log ++ pre ++ [x], s2).
Proof.
  revert log pre s. induction items as [|i rest IH]; intros log pre s Hv Hok Hx; simpl in *.
  - now destruct pre.
  - destruct (CreatedAt i) as [t|]; simpl in Hv; [|now destruct pre].
    destruct (Before t since); simpl in Hv; [now destruct pre|].
    rewrite rangeItems_log in Hv. simpl in Hv.
    destruct pre as [|j pre]; simpl in Hv; injection Hv as Hi Hv; subst.
    + destruct (Hx s) as [s2 Hpanic]. exists s, s2. now rewrite Hpanic.
    + inversion Hok as [|? ? Hj Hpre]; subst.
      destruct (Hj s) as [s' Hcall].
      destruct (IH (log ++ [j]) pre s' Hv Hpre Hx) as (s1 & s2 & Hfed & Hpanic & Hrange).
      exists s1, s2. simpl. rewrite Hcall, Hrange, <- app_assoc. now repeat split.
Qed.

Lemma loopWith_panics (fuel : nat) (st st' : Loop Remote Item) (o : Outcome)
    (pre post : list Item) (x : Item) (s : Sink) :
  loop CmdFlags fetchPage since fuel st = Some (o, st') ->
  calls st' = calls st ++ pre ++ x :: post ->
  Forall (fun i => forall s, exists s', fn i s = Done s') pre ->
  (forall s, exists s', fn x s = Panics s') ->
  exists st'' s1 s2,
    feed fn pre s = Done s1 /\
    fn x s1 = Panics s2 /\
    loopWith CmdFlags fetchPage since fn fuel st s = Some (Panicked, st'', s2) /\
    calls st'' = calls st ++ pre ++ [x].
Proof.
  revert st pre s. induction fuel as [|fuel IH]; intros st pre s Hrun Hcalls Hok Hx;
    [discriminate|].
  simpl in Hrun. simpl loopWith. unfold iteration in Hrun. unfold iterationWith.
  destruct (fetchPage _ _ _ _) as [[[items response] err] r'].
  destruct err as [e|].
  { inversion Hrun; subst. simpl in Hcalls.
    rewrite <- (app_nil_r (calls st)) in Hcalls at 1.
    apply app_inv_head in Hcalls. now destruct pre. }
  rewrite rangeItems_log in Hrun.
  pose proof (rangeWith_quiet items (calls st) s) as Hquiet.
  pose proof (fun pre post => rangeWith_panics items (calls st) pre post x s) as Hpanics.
  destruct (rangeItems since items []) as [c v1]. simpl in Hrun, Hquiet, Hpanics.
  assert (Hhere : forall post1, v1 = pre ++ x :: post1 ->
            exists s1 s2,
              feed fn pre s = Done s1 /\ fn x s1 = Panics s2 /\
              rangeWith since fn items (calls st) s
              = (Return Panicked, calls st ++ pre ++ [x], s2)).
  { intros post1 Hv1. exact (Hpanics pre post1 Hv1 Hok Hx). }
  clear Hpanics.
  assert (Hdone : forall post1, v1 = pre ++ x :: post1 ->
            exists st'' s1 s2,
              feed fn pre s = Done s1 /\ fn x s1 = Panics s2 /\
              match
                match rangeWith since fn items (calls st) s with
                | (Fallthrough, log, s') =>
                    if NextPage response =? 0
                    then HaltWith (Returned None)
                           {| remote := r'; options := options st; calls := log;
                              requests := requests st ++ [Page (Paging (options st))] |}
                           s'
                    else NextWith
                           {| remote := r';
                              options := setPage (options st) (NextPage response);
                              calls := log;
                              requests := requests st ++ [Page (Paging (options st))] |}
                           s'
                | (Return o0, log, s') =>
                    HaltWith o0
                      {| remote := r'; options := options st; calls := log;
                         requests := requests st ++ [Page (Paging (options st))] |}
                      s'
                end
              with
              | NextWith st1 s' => loopWith CmdFlags fetchPage since fn fuel st1 s'
              | HaltWith o0 st1 s' => Some (o0, st1, s')
              end = Some (Panicked, st'', s2) /\
              calls st'' = calls st ++ pre ++ [x]).
  { intros post1 Hv1.
    destruct (Hhere post1 Hv1) as (s1 & s2 & Hfed & Hpanic & Hrange).
    rewrite Hrange. do 3 eexists. repeat split; eassumption || reflexivity. }
  destruct c as [|o'].
  - destruct (NextPage response =? 0) eqn:Hnext.
    + inversion Hrun; subst. simpl in Hcalls. apply app_inv_head in Hcalls.
      exact (Hdone post Hcalls).
    + destruct (loopWith_quiet _ _ _ _ Hrun) as (v2 & Hext & _). simpl in Hext.
      rewrite Hext, <- app_assoc in Hcalls. apply app_inv_head in Hcalls.
      apply app_eq_app in Hcalls. destruct Hcalls as [l [[Hv1 Hv2]|[Hpre Hv2]]].
      * destruct l as [|y l].
        -- rewrite app_nil_r in Hv1. subst v1. simpl in Hv2.
           destruct (Hquiet Hok) as (s1 & Hfed1 & Hrange). rewrite Hrange.
           destruct (IH _ [] s1 Hrun) as (st'' & s1' & s2 & Hfed & Hpanic & Hloop & Hlog);
             [simpl; now rewrite Hext, Hv2|constructor|assumption|].
           simpl in Hfed. inversion Hfed; subst s1'.
           exists st'', s1, s2. repeat split; try assumption.
           simpl in Hlog. now rewrite Hlog, <- app_assoc.
        -- simpl in Hv2. injection Hv2 as Hy Hpost. subst y.
           exact (Hdone l Hv1).
      * subst pre. apply Forall_app in Hok. destruct Hok as [Hok1 Hok2].
        destruct (Hquiet Hok1) as (s1 & Hfed1 & Hrange). rewrite Hrange.
        destruct (IH _ l s1 Hrun) as (st'' & s1' & s2 & Hfed & Hpanic & Hloop & Hlog);
          [simpl; now rewrite Hext, Hv2|assumption|assumption|].
        exists st'', s1', s2. rewrite feed_app, Hfed1. repeat split; try assumption.
        simpl in Hlog. now rewrite Hlog, <- !app_assoc.
  - inversion Hrun; subst. simpl in Hcalls. apply app_inv_head in Hcalls.
    exact (Hdone post Hcalls).
Qed.

(** X5. Whatever the callback does, when a traversal ends the state that
    the callback writes to is the result of the calls [fn(i)] for the
    items of the log, in the order of the log; and a call that panics is
    the call for the last item of the log and ends the traversal in that
    panic. *)
Theorem sink_is_feed_of_log (fuel : nat) (r : Remote) (s0 s : Sink)
    (o : Outcome) (st : Loop Remote Item) :
  iterateWith CmdFlags fetchPage since fn fuel r s0 = Some (o, st, s) ->
  feed fn (calls st) s0 = Done s \/
  (o = Panicked /\
   exists pre x s1,
     calls st = pre ++ [x] /\ feed fn pre s0 = Done s1 /\ fn x s1 = Panics s).
Proof.
  unfold iterateWith. apply loopWith_feed. reflexivity.
Qed.


(** X7. The listing parameters never change but for the page: every
    request asks for all states, sorted by creation, descending, 100 per
    page; the first asks for page 0 and every later one for a page other
    than 0. *)
Theorem options_only_page_changes (r0 : Remote) (k : nat) (st : Loop Remote Item) :
  advance CmdFlags fetchPage since k (start r0) = Some st ->
  options st = optionsAt (Page (Paging (options st))) /\
  (k = 0%nat -> Page (Paging (options st)) = 0) /\
  ((0 < k)%nat -> Page (Paging (options st)) <> 0).
Proof.
  assert (Hgen : forall k (st0 st : Loop Remote Item),
             options st0 = optionsAt (Page (Paging (options st0))) ->
             advance CmdFlags fetchPage since k st0 = Some st ->
             options st = optionsAt (Page (Paging (options st))) /\
             ((0 < k)%nat -> Page (Paging (options st)) <> 0)).
  { clear k st. induction k as [|k IH]; intros st0 st Hopt Hadv; simpl in Hadv.
    - inversion Hadv; subst. split; [assumption|lia].
    - unfold iteration in Hadv.
      destruct (fetchPage _ _ _ _) as [[[items response] err] r'].
      destruct err; [discriminate|].
      destruct (rangeItems since items (calls st0)) as [[|o] log]; [|discriminate].
      destruct (NextPage response =? 0) eqn:Hnext; [discriminate|].
      apply Z.eqb_neq in Hnext.
      assert (Hopt1 : setPage (options st0) (NextPage response)
                      = optionsAt (NextPage response)).
      { rewrite Hopt. reflexivity. }
      rewrite Hopt1 in Hadv.
      destruct (IH _ st (eq_refl : options
                   {| remote := r';
                      options := optionsAt (NextPage response);
                      calls := log;
                      requests := requests st0 ++ [Page (Paging (options st0))] |}
                   = _) Hadv) as [Hkeep Hpage].
      split; [assumption|]. intros _.
      destruct k as [|k]; [|apply Hpage; lia].
      simpl in Hadv. inversion Hadv; subst. assumption. }
  intros Hadv. destruct (Hgen k (start r0) st eq_refl Hadv) as [Hopt Hpage].
  split; [assumption|]. split; [|assumption].
  intros ->. simpl in Hadv. now inversion Hadv.
Qed.

End CallbackFacts.

(** ** The records that reach the writer *)

Section WriterFacts.

Context {Remote Item : Type} `{Dated Item}.
Variable CmdFlags : Flags.
Variable fetchPage : Endpoint Remote Item.
Variable since : Time.
Variable record : Item -> option (list string).
Variable fn : Item -> Writer -> Called Writer.

Hypothesis fn_writes :
  forall i w, fn i w = match record i with
                       | Some r => Done (Write w r)
                       | None => Panics w
                       end.

Lemma recordsOf_app (a b : list Item) :
  recordsOf record (a ++ b) = recordsOf record a ++ recordsOf record b.
Proof. unfold recordsOf. apply flat_map_app. Qed.

Lemma feed_records (items : list Item) (w w' : Writer) :
  feed fn items w = Done w' ->
  Comma w' = Comma w /\ handed w' = handed w ++ recordsOf record items.
Proof.
  revert w. induction items as [|i rest IH]; intros w Hfed; simpl in Hfed.
  - inversion Hfed; subst. simpl. now rewrite app_nil_r.
  - rewrite fn_writes in Hfed. unfold recordsOf. simpl.
    destruct (record i) as [r|]; [|discriminate].
    destruct (IH _ Hfed) as [Hcomma Hhanded]. simpl in *.
    split; [assumption|]. now rewrite Hhanded, <- app_assoc.
Qed.

(** Every record with an item: the calls for the items all return. *)
Lemma feed_all_records (items : list Item) :
  Forall (fun i => record i <> None) items ->
  Forall (fun i => forall w, exists w', fn i w = Done w') items.
Proof.
  intros Hall. eapply Forall_impl; [|exact Hall].
  intros i Hi w. rewrite fn_writes. destruct (record i) as [r|] eqn:Hr; [eauto|congruence].
Qed.

(** What a traversal with a writing closure leaves: the delimiter as it
    was, the records of the items of its log handed over after those that
    were there, no item before the cutoff in the log, and at least one
    request made. *)
Lemma traversal_writes (fuel : nat) (r : Remote) (w w' : Writer) (o : Outcome)
    (st : Loop Remote Item) :
  iterateWith CmdFlags fetchPage since fn fuel r w = Some (o, st, w') ->
  Comma w' = Comma w /\
  handed w' = handed w ++ recordsOf record (calls st) /\
  fresh_log since st /\
  requests st <> [].
Proof.
  intros Hrun.
  destruct (loopWith_keeps_fresh CmdFlags fetchPage since fn fuel (start r) st w w' o
              (Forall_nil _) Hrun) as [Hfresh Hlen].
  assert (Hreq : requests st <> []).
  { intros Hnil. rewrite Hnil in Hlen. simpl in Hlen. lia. }
  destruct (loopWith_feed CmdFlags fetchPage since fn fuel (start r) st w w w' o
              eq_refl Hrun)
    as [Hdone|(_ & pre & x & w1 & Hcalls & Hpre & Hx)].
  - destruct (feed_records _ _ _ Hdone) as [Hcomma Hhanded]. now repeat split.
  - destruct (feed_records _ _ _ Hpre) as [Hcomma Hhanded].
    rewrite fn_writes in Hx. destruct (record x) as [rx|] eqn:Hrx; [discriminate|].
    inversion Hx; subst w'.
    rewrite Hcalls, recordsOf_app. unfold recordsOf at 2. simpl. rewrite Hrx.
    simpl. rewrite app_nil_r. now repeat split.
Qed.

(** A traversal whose items all have a record hands these records over,
    and ends like the traversal that only logs. *)
Lemma quiet_traversal_writes (fuel : nat) (r : Remote) (w : Writer) (o : Outcome)
    (st : Loop Remote Item) :
  iterateItems CmdFlags fetchPage since fuel r = Some (o, st) ->
  Forall (fun i => record i <> None) (calls st) ->
  iterateWith CmdFlags fetchPage since fn fuel r w
  = Some (o, st, {| Comma := Comma w;
                    handed := handed w ++ recordsOf record (calls st) |}).
Proof.
  intros Hrun Hall.
  destruct (loopWith_quiet CmdFlags fetchPage since fn fuel (start r) st o Hrun)
    as (v & Hcalls & Hwith).
  simpl in Hcalls. subst v.
  destruct (Hwith w (feed_all_records _ Hall)) as (w' & Hfed & Hloop).
  destruct (feed_records _ _ _ Hfed) as [Hcomma Hhanded].
  unfold iterateWith. rewrite Hloop. destruct w' as [comma' handed']. simpl in *.
  now subst.
Qed.

(** A first item without a record ends the traversal in a panic, with
    the records of the items ahead of it handed over. *)
Lemma panicking_traversal_writes (fuel : nat) (r : Remote) (w : Writer) (o : Outcome)
    (st : Loop Remote Item) (pre post : list Item) (x : Item) :
  iterateItems CmdFlags fetchPage since fuel r = Some (o, st) ->
  calls st = pre ++ x :: post ->
  Forall (fun i => record i <> None) pre ->
  record x = None ->
  exists st',
    iterateWith CmdFlags fetchPage since fn fuel r w
    = Some (Panicked, st', {| Comma := Comma w;
                              handed := handed w ++ recordsOf record pre |}) /\
    calls st' = pre ++ [x].
Proof.
  intros Hrun Hcalls Hall Hx.
  destruct (loopWith_panics CmdFlags fetchPage since fn fuel (start r) st o
              pre post x w Hrun Hcalls (feed_all_records _ Hall))
    as (st' & w1 & w2 & Hfed & Hpanic & Hloop & Hlog).
  { intros w0. rewrite fn_writes, Hx. now exists w0. }
  destruct (feed_records _ _ _ Hfed) as [Hcomma Hhanded].
  rewrite fn_writes, Hx in Hpanic. inversion Hpanic; subst w2.
  exists st'. split; [|exact Hlog].
  unfold iterateWith. rewrite Hloop. destruct w1 as [comma' handed']. simpl in *.
  now subst.
Qed.

(** Records have five fields. *)
Lemma recordsOf_shape (P : list string -> Prop) (items : list Item) :
  (forall i rec, record i = Some rec -> P rec) ->
  Forall P (recordsOf record items).
Proof.
  intros Hshape. unfold recordsOf. induction items as [|i rest IH]; simpl.
  - constructor.
  - destruct (record i) as [rec|] eqn:Hrec; simpl; [|assumption].
    constructor; [now apply (Hshape i)|assumption].
Qed.

End WriterFacts.

(** ** [main] *)

Section MainFacts.

Context {Remote : Type}.
Variable NewClient : option HTTPClient -> github.Client Remote.
Variable Parse : string -> string -> Time * option error.
Variable Format : Time -> string -> string.

(** The flags with the password of the environment, the client made for
    them, and the writer before the first record. *)
Local Abbreviation flagsOf env parsed :=
  (setPassword parsed (Getenv env GitHubPasswordEnvVarName)).
Local Abbreviation clientOf env parsed :=
  (NewClient (gitHubHTTPClient env (flagsOf env parsed))).
Local Abbreviation writerOf parsed :=
  {| Comma := if TabSeparated parsed then "009"%char else ","%char; handed := [] |}.

(** [main] behind its two checks. *)
Lemma main_after_checks (env : Env) (parsed : Flags) (fuel : nat) (r : Remote)
    (since : Time) :
  gitHubHTTPClient env (flagsOf env parsed) <> None \/ NoLogin parsed = true ->
  Parse CmdFlagsSinceFormat (Since parsed) = (since, None) ->
  main NewClient Parse Format env parsed fuel r
  = match iterateWith (flagsOf env parsed)
            (github.Issues_ListByRepo (clientOf env parsed)) since
            (writeIssue Format) fuel r (writerOf parsed) with
    | None => None
    | Some (Panicked, st, w1) =>
        Some {| exit := Crashes; writer := Some w1; flushed := true;
                world := remote st; issuePages := requests st; pullPages := [] |}
    | Some (Returned (Some e), st, w1) =>
        Some {| exit := Fatal e; writer := Some w1; flushed := false;
                world := remote st; issuePages := requests st; pullPages := [] |}
    | Some (Returned None, st, w1) =>
        match iterateWith (flagsOf env parsed)
                (github.PullRequests_List (clientOf env parsed)) since
                (writePullRequest Format) fuel (remote st) w1 with
        | None => None
        | Some (Panicked, st', w2) =>
            Some {| exit := Crashes; writer := Some w2; flushed := true;
                    world := remote st'; issuePages := requests st;
                    pullPages := requests st' |}
        | Some (Returned (Some e), st', w2) =>
            Some {| exit := Fatal e; writer := Some w2; flushed := false;
                    world := remote st'; issuePages := requests st;
                    pullPages := requests st' |}
        | Some (Returned None, st', w2) =>
            Some {| exit := Returns; writer := Some w2; flushed := true;
                    world := remote st'; issuePages := requests st;
                    pullPages := requests st' |}
        end
    end.
Proof.
  intros Hguard Hparse. unfold main. simpl Since. simpl TabSeparated. simpl NoLogin.
  rewrite Hparse.
  assert (Hpass : match gitHubHTTPClient env (flagsOf env parsed) with
                  | None => true | Some _ => false end
                  && Bool.eqb (NoLogin parsed) false = false).
  { destruct Hguard as [Hclient|Hlogin].
    - now destruct (gitHubHTTPClient env (flagsOf env parsed)).
    - rewrite Hlogin. apply andb_false_r. }
  rewrite Hpass. now destruct (TabSeparated parsed).
Qed.



Lemma issueRecord_shape (i : github.Issue) (rec : list string) :
  issueRecord Format i = Some rec ->
  List.length rec = 5%nat /\ nth 1 rec ""%string = TypeIssue.
Proof.
  unfold issueRecord. destruct (github.Issue_User i) as [u|]; [|discriminate].
  destruct (github.User_Login u), (github.User_HTMLURL u), (github.Issue_Number i),
    (github.Issue_HTMLURL i), (github.Issue_Title i), (github.Issue_CreatedAt i);
    try discriminate.
  intros Hrec. inversion Hrec; subst. now split.
Qed.

Lemma pullRequestRecord_shape (p : github.PullRequest) (rec : list string) :
  pullRequestRecord Format p = Some rec ->
  List.length rec = 5%nat /\ nth 1 rec ""%string = TypePullRequest.
Proof.
  unfold pullRequestRecord.
  destruct (github.PullRequest_User p) as [u|]; [|discriminate].
  destruct (github.User_Login u), (github.User_HTMLURL u),
    (github.PullRequest_Number p), (github.PullRequest_HTMLURL p),
    (github.PullRequest_Title p), (github.PullRequest_CreatedAt p);
    try discriminate.
  intros Hrec. inversion Hrec; subst. now split.
Qed.

(** X10. A run of [main] that passes its checks, and in which both
    traversals return [nil] over items that all have their fields, returns
    with the deferred [Flush] run and with these records handed to the
    writer: one per issue that the traversal of the issues visits, in its
    order, and behind them one per pull request that the traversal of the
    pull requests visits, which starts from the remote side as the first
    left it. *)
Theorem main_exports (env : Env) (parsed : Flags) (fuel : nat) (r : Remote)
    (since : Time) (stI : Loop Remote github.Issue)
    (stP : Loop Remote github.PullRequest) :
  gitHubHTTPClient env (flagsOf env parsed) <> None \/ NoLogin parsed = true ->
  Parse CmdFlagsSinceFormat (Since parsed) = (since, None) ->
  iterateItems (flagsOf env parsed) (github.Issues_ListByRepo (clientOf env parsed))
    since fuel r = Some (Returned None, stI) ->
  Forall (fun i => issueRecord Format i <> None) (calls stI) ->
  iterateItems (flagsOf env parsed) (github.PullRequests_List (clientOf env parsed))
    since fuel (remote stI) = Some (Returned None, stP) ->
  Forall (fun p => pullRequestRecord Format p <> None) (calls stP) ->
  main NewClient Parse Format env parsed fuel r
  = Some {| exit := Returns;
            writer := Some
              {| Comma := if TabSeparated parsed then "009"%char else ","%char;
                 handed := recordsOf (issueRecord Format) (calls stI)
                           ++ recordsOf (pullRequestRecord Format) (calls stP) |};
            flushed := true;
            world := remote stP;
            issuePages := requests stI;
            pullPages := requests stP |}.
Proof.
  intros Hguard Hparse HrunI HallI HrunP HallP.
  rewrite (main_after_checks env parsed fuel r since Hguard Hparse).
  rewrite (quiet_traversal_writes _ _ _ (issueRecord Format) (writeIssue Format)
             (fun i w => eq_refl) fuel r _ _ _ HrunI HallI).
  rewrite (quiet_traversal_writes _ _ _ (pullRequestRecord Format)
             (writePullRequest Format) (fun p w => eq_refl) fuel _ _ _ _ HrunP HallP).
  reflexivity.
Qed.

(** X11. An error of a request is fatal and costs the flush.  When the
    traversal of the issues returns an error, [main] ends in [log.Fatal]
    with it, no page of pull requests is asked for, and the records of
    the issues visited so far were handed to the writer but the deferred
    [Flush] does not run.  When the traversal of the pull requests
    returns an error after the issues went through, [main] ends in
    [log.Fatal] with it, again without the [Flush], whatever was handed
    to the writer. *)
Theorem fetch_error_is_fatal (env : Env) (parsed : Flags) (fuel : nat) (r : Remote)
    (since : Time) (e : error) (stI : Loop Remote github.Issue) :
  gitHubHTTPClient env (flagsOf env parsed) <> None \/ NoLogin parsed = true ->
  Parse CmdFlagsSinceFormat (Since parsed) = (since, None) ->
  Forall (fun i => issueRecord Format i <> None) (calls stI) ->
  (iterateItems (flagsOf env parsed) (github.Issues_ListByRepo (clientOf env parsed))
     since fuel r = Some (Returned (Some e), stI) ->
   main NewClient Parse Format env parsed fuel r
   = Some {| exit := Fatal e;
             writer := Some
               {| Comma := if TabSeparated parsed then "009"%char else ","%char;
                  handed := recordsOf (issueRecord Format) (calls stI) |};
             flushed := false;
             world := remote stI;
             issuePages := requests stI;
             pullPages := [] |}) /\
  (forall stP : Loop Remote github.PullRequest,
      iterateItems (flagsOf env parsed) (github.Issues_ListByRepo (clientOf env parsed))
        since fuel r = Some (Returned None, stI) ->
      iterateItems (flagsOf env parsed) (github.PullRequests_List (clientOf env parsed))
        since fuel (remote stI) = Some (Returned (Some e), stP) ->
      Forall (fun p => pullRequestRecord Format p <> None) (calls stP) ->
      main NewClient Parse Format env parsed fuel r
      = Some {| exit := Fatal e;
                writer := Some
                  {| Comma := if TabSeparated parsed then "009"%char else ","%char;
                     handed := recordsOf (issueRecord Format) (calls stI)
                               ++ recordsOf (pullRequestRecord Format) (calls stP) |};
                flushed := false;
                world := remote stP;
                issuePages := requests stI;
                pullPages := requests stP |}).
Proof.
  intros Hguard Hparse HallI. split.
  - intros HrunI.
    rewrite (main_after_checks env parsed fuel r since Hguard Hparse).
    rewrite (quiet_traversal_writes _ _ _ (issueRecord Format) (writeIssue Format)
               (fun i w => eq_refl) fuel r _ _ _ HrunI HallI).
    reflexivity.
  - intros stP HrunI HrunP HallP.
    rewrite (main_after_checks env parsed fuel r since Hguard Hparse).
    rewrite (quiet_traversal_writes _ _ _ (issueRecord Format) (writeIssue Format)
               (fun i w => eq_refl) fuel r _ _ _ HrunI HallI).
    rewrite (quiet_traversal_writes _ _ _ (pullRequestRecord Format)
               (writePullRequest Format) (fun p w => eq_refl) fuel _ _ _ _ HrunP HallP).
    reflexivity.
Qed.

(** X12. However [main] ends, the records handed to its writer are
    records of issues followed by records of pull requests, all of items
    created at or after the parsed date; each has five fields, the second
    of which is [Issue] for the former and [Pull Request] for the latter;
    and the delimiter is the tab under [-t] and the comma otherwise. *)
Theorem records_of_fresh_items (env : Env) (parsed : Flags) (fuel : nat) (r : Remote)
    (p : Process Remote) (w : Writer) :
  main NewClient Parse Format env parsed fuel r = Some p ->
  writer p = Some w ->
  Comma w = (if TabSeparated parsed then "009"%char else ","%char) /\
  exists (issues : list github.Issue) (pulls : list github.PullRequest),
    handed w = recordsOf (issueRecord Format) issues
               ++ recordsOf (pullRequestRecord Format) pulls /\
    Forall (fun i => fresh (fst (Parse CmdFlagsSinceFormat (Since parsed))) i = true)
           issues /\
    Forall (fun i => fresh (fst (Parse CmdFlagsSinceFormat (Since parsed))) i = true)
           pulls /\
    Forall (fun rec => List.length rec = 5%nat /\ nth 1 rec ""%string = TypeIssue)
           (recordsOf (issueRecord Format) issues) /\
    Forall (fun rec => List.length rec = 5%nat /\ nth 1 rec ""%string = TypePullRequest)
           (recordsOf (pullRequestRecord Format) pulls).
Proof.
  assert (Hshape : forall issues pulls,
             Forall (fun rec => List.length rec = 5%nat /\ nth 1 rec ""%string = TypeIssue)
                    (recordsOf (issueRecord Format) issues) /\
             Forall (fun rec => List.length rec = 5%nat
                                /\ nth 1 rec ""%string = TypePullRequest)
                    (recordsOf (pullRequestRecord Format) pulls)).
  { intros issues pulls. split; apply recordsOf_shape.
    - apply issueRecord_shape.
    - apply pullRequestRecord_shape. }
  unfold main. simpl NoLogin. simpl Since. simpl TabSeparated.
  destruct (_ && _); [intros Hp Hw; inversion Hp; subst; discriminate|].
  destruct (Parse CmdFlagsSinceFormat (Since parsed)) as [since [e|]]; simpl fst.
  - intros Hp Hw. inversion Hp; subst. simpl in Hw. inversion Hw; subst.
    split; [now destruct (TabSeparated parsed)|].
    exists [], []. destruct (Hshape [] []) as [HsI HsP].
    split; [now destruct (TabSeparated parsed)|]. now repeat split.
  - destruct (iterateWith _ (github.Issues_ListByRepo _) _ _ _ _ _)
      as [[[oI stI] w1]|] eqn:HrunI; [|discriminate].
    destruct (traversal_writes _ _ _ (issueRecord Format) (writeIssue Format)
                (fun i w => eq_refl) fuel r _ w1 oI stI HrunI)
      as (HcommaI & HhandedI & HfreshI & _).
    assert (Hfirst : Comma w1 = (if TabSeparated parsed then "009"%char else ","%char)
                     /\ handed w1 = recordsOf (issueRecord Format) (calls stI)).
    { rewrite HcommaI, HhandedI. now destruct (TabSeparated parsed). }
    destruct Hfirst as [Hcomma1 Hhanded1].
    assert (Hissues : forall w, w = w1 ->
              Comma w = (if TabSeparated parsed then "009"%char else ","%char) /\
              exists issues pulls,
                handed w = recordsOf (issueRecord Format) issues
                           ++ recordsOf (pullRequestRecord Format) pulls /\
                Forall (fun i => fresh since i = true) issues /\
                Forall (fun i => fresh since i = true) pulls /\
                Forall (fun rec => List.length rec = 5%nat
                                   /\ nth 1 rec ""%string = TypeIssue)
                       (recordsOf (issueRecord Format) issues) /\
                Forall (fun rec => List.length rec = 5%nat
                                   /\ nth 1 rec ""%string = TypePullRequest)
                       (recordsOf (pullRequestRecord Format) pulls)).
    { intros w0 ->. split; [assumption|]. exists (calls stI), [].
      destruct (Hshape (calls stI) []) as [HsI HsP].
      simpl. rewrite app_nil_r. now repeat split. }
    destruct oI as [[e|]|].
    + intros Hp Hw. inversion Hp; subst. simpl in Hw. inversion Hw; subst.
      now apply Hissues.
    + destruct (iterateWith _ (github.PullRequests_List _) _ _ _ _ _)
        as [[[oP stP] w2]|] eqn:HrunP; [|discriminate].
      destruct (traversal_writes _ _ _ (pullRequestRecord Format)
                  (writePullRequest Format) (fun i w => eq_refl) fuel _ _ w2 oP stP HrunP)
        as (HcommaP & HhandedP & HfreshP & _).
      assert (Hboth : forall w, w = w2 ->
                Comma w = (if TabSeparated parsed then "009"%char else ","%char) /\
                exists issues pulls,
                  handed w = recordsOf (issueRecord Format) issues
                             ++ recordsOf (pullRequestRecord Format) pulls /\
                  Forall (fun i => fresh since i = true) issues /\
                  Forall (fun i => fresh since i = true) pulls /\
                  Forall (fun rec => List.length rec = 5%nat
                                     /\ nth 1 rec ""%string = TypeIssue)
                         (recordsOf (issueRecord Format) issues) /\
                  Forall (fun rec => List.length rec = 5%nat
                                     /\ nth 1 rec ""%string = TypePullRequest)
                         (recordsOf (pullRequestRecord Format) pulls)).
      { intros w0 ->. split; [congruence|]. exists (calls stI), (calls stP).
        destruct (Hshape (calls stI) (calls stP)) as [HsI HsP].
        rewrite HhandedP, Hhanded1. now repeat split. }
      destruct oP as [[e|]|];
        intros Hp Hw; inversion Hp; subst; simpl in Hw; inversion Hw; subst;
        now apply Hboth.
    + intros Hp Hw. inversion Hp; subst. simpl in Hw. inversion Hw; subst.
      now apply Hissues.
Qed.

(** X13. An issue with a [nil] field among those that the traversal
    visits makes [main] crash at the first such issue: the records of the
    issues ahead of it were handed to the writer and, a panic running the
    deferred calls, flushed; no issue behind it gets a record and no page
    of pull requests is asked for. *)
Theorem nil_field_crashes (env : Env) (parsed : Flags) (fuel : nat) (r : Remote)
    (since : Time) (o : Outcome) (stI : Loop Remote github.Issue)
    (pre post : list github.Issue) (x : github.Issue) :
  gitHubHTTPClient env (flagsOf env parsed) <> None \/ NoLogin parsed = true ->
  Parse CmdFlagsSinceFormat (Since parsed) = (since, None) ->
  iterateItems (flagsOf env parsed) (github.Issues_ListByRepo (clientOf env parsed))
    since fuel r = Some (o, stI) ->
  calls stI = pre ++ x :: post ->
  Forall (fun i => issueRecord Format i <> None) pre ->
  issueRecord Format x = None ->
  exists p,
    main NewClient Parse Format env parsed fuel r = Some p /\
    exit p = Crashes /\
    flushed p = true /\
    writer p = Some
      {| Comma := if TabSeparated parsed then "009"%char else ","%char;
         handed := recordsOf (issueRecord Format) pre |} /\
    pullPages p = [].
Proof.
  intros Hguard Hparse Hrun Hcalls Hall Hx.
  rewrite (main_after_checks env parsed fuel r since Hguard Hparse).
  destruct (panicking_traversal_writes _ _ _ (issueRecord Format) (writeIssue Format)
              (fun i w => eq_refl) fuel r
              {| Comma := if TabSeparated parsed then "009"%char else ","%char;
                 handed := [] |}
              o stI pre post x Hrun Hcalls Hall Hx) as (st' & Hwith & _).
  rewrite Hwith. eexists. split; [reflexivity|]. now repeat split.
Qed.

End MainFacts.

(** ** The rest of the program on the sample data *)

Lemma hyperlink_unambiguous_witness :
  "https://github.com/octocat"%string = "https://github.com/octocat"%string /\
  formatValue (VInt 42) = formatValue (VString "42").
Proof.
  exact (hyperlink_unambiguous (VInt 42) (VString "42")
           "https://github.com/octocat" "https://github.com/octocat"
           eq_refl eq_refl eq_refl).
Defined.

Lemma gitHubHTTPClient_choice_witness :
  gitHubHTTPClient tokenEnv acmeOctocat = Some (OAuth2Client "s3cr3t") /\
  gitHubHTTPClient [] acmeOctocat = Some (BasicAuthClient "octocat" "hunter2") /\
  gitHubHTTPClient passwordEnv acmeStrict = None.
Proof.
  split; [|split].
  - refine (proj1 (gitHubHTTPClient_choice tokenEnv acmeOctocat) _). discriminate.
  - refine (proj1 (proj2 (gitHubHTTPClient_choice [] acmeOctocat)) eq_refl _ _);
      discriminate.
  - refine (proj2 (proj2 (proj2 (gitHubHTTPClient_choice passwordEnv acmeStrict))) _).
    split; [reflexivity|left; reflexivity].
Defined.

Lemma GitHubHTTPClient_agrees_witness :
  GitHubHTTPClient passwordEnv = None /\
  GitHubHTTPClient tokenEnv = Some (OAuth2Client "s3cr3t") /\
  gitHubHTTPClient tokenEnv acmeStrict = GitHubHTTPClient tokenEnv.
Proof.
  split; [|split].
  - exact (proj2 (proj1 (GitHubHTTPClient_agrees passwordEnv acmeStrict)) eq_refl).
  - refine (proj1 (proj2 (GitHubHTTPClient_agrees tokenEnv acmeStrict)) _). discriminate.
  - refine (proj2 (proj2 (GitHubHTTPClient_agrees tokenEnv acmeStrict)) _).
    left. reflexivity.
Defined.

Lemma sink_is_feed_of_log_witness :
  feed (writeIssue formatDay) [bug6; untitled] NewWriter
    = Done (Write NewWriter [googleSheetHyperlink (VString "octocat")
                               "https://github.com/octocat";
                             TypeIssue;
                             googleSheetHyperlink (VInt 6)
                               "https://github.com/acme/widgets/issues";
                             "crash on start"%string;
                             "19754"%string]) \/
  (Panicked = Panicked /\
   exists pre x s1,
     [bug6; untitled] = pre ++ [x] /\
     feed (writeIssue formatDay) pre NewWriter = Done s1 /\
     writeIssue formatDay x s1
     = Panics (Write NewWriter [googleSheetHyperlink (VString "octocat")
                                  "https://github.com/octocat";
                                TypeIssue;
                                googleSheetHyperlink (VInt 6)
                                  "https://github.com/acme/widgets/issues";
                                "crash on start"%string;
                                "19754"%string])).
Proof.
  exact (sink_is_feed_of_log acmeWidgets (servePages [[bug6; untitled; bug5]]) newYear
           (writeIssue formatDay) 1 tt NewWriter _ Panicked
           {| remote := tt; options := optionsAt 0; calls := [bug6; untitled];
              requests := [0] |}
           eq_refl).
Defined.


Lemma options_only_page_changes_witness :
  optionsAt 2 = optionsAt (Page (Paging (optionsAt 2))) /\
  (1%nat = 0%nat -> Page (Paging (optionsAt 2)) = 0) /\
  ((0 < 1)%nat -> Page (Paging (optionsAt 2)) <> 0).
Proof.
  exact (options_only_page_changes acmeWidgets (servePages issueHistory) newYear tt 1
           {| remote := tt; options := optionsAt 2; calls := [issue6; issue5];
              requests := [0] |}
           eq_refl).
Defined.



Lemma main_exports_witness :
  main (pagesClient [[bug6; bug5]; [bug3]] [[fix4; fix2]]) parseNewYear formatDay
    tokenEnv acmeStrict 2 tt
  = Some {| exit := Returns;
            writer := Some
              {| Comma := "009"%char;
                 handed := recordsOf (issueRecord formatDay) [bug6; bug5]
                           ++ recordsOf (pullRequestRecord formatDay) [fix4] |};
            flushed := true;
            world := tt;
            issuePages := [0; 2];
            pullPages := [0] |}.
Proof.
  refine (main_exports (pagesClient [[bug6; bug5]; [bug3]] [[fix4; fix2]])
            parseNewYear formatDay tokenEnv acmeStrict 2 tt newYear
            {| remote := tt; options := optionsAt 2; calls := [bug6; bug5];
               requests := [0; 2] |}
            {| remote := tt; options := optionsAt 0; calls := [fix4];
               requests := [0] |}
            _ eq_refl eq_refl _ eq_refl _).
  - left. discriminate.
  - repeat constructor; discriminate.
  - repeat constructor; discriminate.
Defined.

Lemma fetch_error_is_fatal_witness :
  main scriptClient parseNewYear formatDay [] acmeWidgets 2 issuesFail
  = Some {| exit := Fatal "connection reset";
            writer := Some
              {| Comma := ","%char;
                 handed := recordsOf (issueRecord formatDay) [bug6] |};
            flushed := false;
            world := ([], []);
            issuePages := [0; 2];
            pullPages := [] |}.
Proof.
  refine (proj1 (fetch_error_is_fatal scriptClient parseNewYear formatDay []
                   acmeWidgets 2 issuesFail newYear "connection reset"
                   {| remote := ([], []); options := optionsAt 2; calls := [bug6];
                      requests := [0; 2] |}
                   _ eq_refl _) eq_refl).
  - right. reflexivity.
  - repeat constructor; discriminate.
Defined.

Lemma records_of_fresh_items_witness :
  ","%char = ","%char /\
  exists (issues : list github.Issue) (pulls : list github.PullRequest),
    recordsOf (issueRecord formatDay) [bug6] ++ recordsOf (pullRequestRecord formatDay) [fix4]
    = recordsOf (issueRecord formatDay) issues
      ++ recordsOf (pullRequestRecord formatDay) pulls /\
    Forall (fun i => fresh (fst (parseNewYear CmdFlagsSinceFormat "2024-01-01")) i = true)
           issues /\
    Forall (fun i => fresh (fst (parseNewYear CmdFlagsSinceFormat "2024-01-01")) i = true)
           pulls /\
    Forall (fun rec => List.length rec = 5%nat /\ nth 1 rec ""%string = TypeIssue)
           (recordsOf (issueRecord formatDay) issues) /\
    Forall (fun rec => List.length rec = 5%nat /\ nth 1 rec ""%string = TypePullRequest)
           (recordsOf (pullRequestRecord formatDay) pulls).
Proof.
  exact (records_of_fresh_items scriptClient parseNewYear formatDay [] acmeWidgets 2
           pullsFail
           {| exit := Fatal "connection reset";
              writer := Some
                {| Comma := ","%char;
                   handed := recordsOf (issueRecord formatDay) [bug6]
                             ++ recordsOf (pullRequestRecord formatDay) [fix4] |};
              flushed := false;
              world := ([], []);
              issuePages := [0];
              pullPages := [0; 2] |}
           {| Comma := ","%char;
              handed := recordsOf (issueRecord formatDay) [bug6]
                        ++ recordsOf (pullRequestRecord formatDay) [fix4] |}
           eq_refl eq_refl).
Defined.

Lemma nil_field_crashes_witness :
  exists p,
    main (pagesClient [[bug6; untitled; bug5]] [[fix4]]) parseNewYear formatDay
      [] acmeWidgets 1 tt = Some p /\
    exit p = Crashes /\
    flushed p = true /\
    writer p = Some {| Comma := ","%char;
                       handed := recordsOf (issueRecord formatDay) [bug6] |} /\
    pullPages p = [].
Proof.
  refine (nil_field_crashes (pagesClient [[bug6; untitled; bug5]] [[fix4]])
            parseNewYear formatDay [] acmeWidgets 1 tt newYear (Returned None)
            {| remote := tt; options := optionsAt 0; calls := [bug6; untitled; bug5];
               requests := [0] |}
            [bug6] [bug5] untitled _ eq_refl eq_refl eq_refl _ eq_refl).
  - right. reflexivity.
  - repeat constructor; discriminate.
Defined.
